(** * UrsinaFlightSim: the numeric core of D9.py

    A shallow embedding of the [Matrix] class, of [hash_password] and of the
    per-tick pipeline of [FlightSimulator] (control surfaces, Euler step of
    the two state vectors, frame transform, ground collision, duration cap),
    followed by the properties the specification states about them.

    Python integers are modelled by [Z]; Python floats are modelled by the
    real numbers [R] (rounding, infinities and NaN are not modelled).  A
    Python call either returns a value or raises: [res A]. *)

From Stdlib Require Import ZArith String List Bool Arith Lia.
From Stdlib Require Import Reals Lra.
Import ListNotations.

Set Implicit Arguments.

(** ** Outcomes of a Python call *)

Inductive exn : Type :=
| IndexError
| TypeError
| AttributeError
| RecursionError
| ZeroDivisionError.

Inductive res (A : Type) : Type :=
| Ok (a : A)
| Raise (e : exn).

Arguments Ok {A} a.
Arguments Raise {A} e.

Definition bind {A B : Type} (c : res A) (k : A -> res B) : res B :=
  match c with
  | Ok a => k a
  | Raise e => Raise e
  end.

Declare Scope py_scope.
Delimit Scope py_scope with py.
Notation "x <- c ;; k" := (bind c (fun x => k))
  (at level 61, c at next level, right associativity) : py_scope.
Open Scope py_scope.

(** [l[i]] for an index produced by [range]: out of range raises. *)
Definition getitem {A : Type} (l : list A) (i : nat) : res A :=
  match nth_error l i with
  | Some a => Ok a
  | None => Raise IndexError
  end.

(** A [for] loop that appends one computed element per item. *)
Fixpoint mapM {A B : Type} (f : A -> res B) (l : list A) : res (list B) :=
  match l with
  | [] => Ok []
  | a :: l' => b <- f a ;; bs <- mapM f l' ;; Ok (b :: bs)
  end.

(** A [for] loop that threads an accumulator. *)
Fixpoint foldM {A S : Type} (f : S -> A -> res S) (l : list A) (s : S) : res S :=
  match l with
  | [] => Ok s
  | a :: l' => s' <- f s a ;; foldM f l' s'
  end.

(** ** Numbers

    The matrix code is duck-typed over its elements: it needs the integer
    literals [0] and [(-1)**i], [+] and [*]. *)

Class Number (T : Type) : Type := {
  num_of_Z : Z -> T;
  num_add : T -> T -> T;
  num_mul : T -> T -> T
}.

#[export] Instance Number_Z : Number Z := {
  num_of_Z := fun z => z;
  num_add := Z.add;
  num_mul := Z.mul
}.

#[export] Instance Number_R : Number R := {
  num_of_Z := IZR;
  num_add := Rplus;
  num_mul := Rmult
}.

(** ** class Matrix *)

Module Matrix.
Section WithNumber.

Context {T : Type} `{Number T}.

(** [__init__]: [height] and [width] are computed once from [data] and
    never reassigned, so they are functions of [data]. *)
Record t : Type := Matrix { data : list (list T) }.

Definition height (m : t) : nat := length (data m).

Definition width (m : t) : nat :=
  match data m with
  | [] => 0
  | row :: _ => length row
  end.

Definition getmatrix (m : t) : list (list T) := data m.
Definition getheight (m : t) : nat := height m.
Definition getwidth (m : t) : nat := width m.

(** What a Matrix method hands back: a number ([det]), a Matrix, or the
    string ["Error"]. *)
Inductive pyobj : Type :=
| PNum (x : T)
| PMat (m : t)
| PStr (s : string).

(** [self.data[i][j]] *)
Definition at2 (m : t) (i j : nat) : res T :=
  row <- getitem (data m) i ;; getitem row j.

(** [sub(self, y, x)]: the loop over rows skips [i = x], the loop over
    columns skips [j = y]. *)
Definition sub (m : t) (y x : nat) : res t :=
  r <- mapM (fun i =>
               mapM (fun j => at2 m i j)
                    (filter (fun j => negb (j =? y)) (seq 0 (width m))))
            (filter (fun i => negb (i =? x)) (seq 0 (height m))) ;;
  Ok (Matrix r).

(** [det(self)].  [fuel] bounds the depth of the recursion; [det] supplies
    the height, which the recursion never exhausts (each level removes one
    row).  A non-number coming back from the recursive call makes the
    accumulation [t += ...] raise [TypeError]. *)
Fixpoint det_rec (fuel : nat) (m : t) : res pyobj :=
  if negb (height m =? width m) then Ok (PStr "Error"%string)
  else if width m =? 1 then
    x <- at2 m 0 0 ;; Ok (PNum x)
  else
    s <- foldM (fun acc i =>
                  r <- sub m 0 i ;;
                  e <- at2 m 0 i ;;
                  d <- match fuel with
                       | O => Raise RecursionError
                       | S fuel' => det_rec fuel' r
                       end ;;
                  match d with
                  | PNum dv =>
                      Ok (num_add acc
                            (num_mul (num_mul e dv)
                                     (num_of_Z ((-1) ^ Z.of_nat i))))
                  | _ => Raise TypeError
                  end)
               (seq 0 (height m)) (num_of_Z 0) ;;
    Ok (PNum s).

Definition det (m : t) : res pyobj := det_rec (height m) m.

(** [__add__(self, other)] for a Matrix [other]. *)
Definition add (a b : t) : res pyobj :=
  if negb (height a =? height b) || negb (width a =? width b)
  then Ok (PStr "Error"%string)
  else
    r <- mapM (fun i =>
                 mapM (fun j =>
                         x <- at2 a i j ;;
                         y <- at2 b i j ;;
                         Ok (num_add x y))
                      (seq 0 (width a)))
              (seq 0 (height a)) ;;
    Ok (PMat (Matrix r)).

(** The right operand of [*]: a Matrix ([isinstance(other, Matrix)]) or a
    number. *)
Inductive operand : Type :=
| OMat (m : t)
| ONum (k : T).

(** [__mul__(self, other)] *)
Definition mul (a : t) (other : operand) : res pyobj :=
  match other with
  | OMat b =>
      if negb (width a =? height b) then Ok (PStr "Error"%string)
      else
        r <- mapM (fun i =>
                     mapM (fun j =>
                             foldM (fun sum_val k =>
                                      x <- at2 a i k ;;
                                      y <- at2 b k j ;;
                                      Ok (num_add sum_val (num_mul x y)))
                                   (seq 0 (width a)) (num_of_Z 0))
                          (seq 0 (width b)))
                  (seq 0 (height a)) ;;
        Ok (PMat (Matrix r))
  | ONum k =>
      r <- mapM (fun i =>
                   mapM (fun j => x <- at2 a i j ;; Ok (num_mul x k))
                        (seq 0 (width a)))
                (seq 0 (height a)) ;;
      Ok (PMat (Matrix r))
  end.

(** [__rmul__(self, other)] *)
Definition rmul (a : t) (other : operand) : res pyobj := mul a other.

(** A rectangular [h] x [w] matrix: [h] rows, each of length [w]. *)
Definition shaped (h w : nat) (m : t) : Prop :=
  length (data m) = h /\ Forall (fun row => length row = w) (data m).

End WithNumber.

Arguments t T : clear implicits.
Arguments pyobj T : clear implicits.
Arguments operand T : clear implicits.

End Matrix.

Import Matrix(Matrix, PNum, PMat, PStr, OMat, ONum).

(** ** hash_password

    A Python string is a sequence of Unicode code points; [ord] maps a
    character to its code point.  Python's [^], [<<] and [%] on unbounded
    integers are [Z.lxor], [Z.shiftl] and [Z.modulo] (the modulus is
    positive, so the result of [%] is non-negative in both languages). *)

Definition pystr : Type := list N.

Definition ord (char : N) : Z := Z.of_N char.

Definition of_string (s : string) : pystr :=
  map Ascii.N_of_ascii (list_ascii_of_string s).

Definition hash_round (salt : Z) (hash_val : Z) (char : N) : Z :=
  let char := ord char in
  let hash_val := (hash_val * 97)%Z in
  let hash_val := Z.lxor hash_val (char + 144479) in
  let hash_val := Z.shiftl hash_val ((char mod 5) + 1) in
  let hash_val := Z.lxor hash_val salt in
  (hash_val + salt)%Z.

Definition hash_password (password : pystr) (salt : Z) : Z :=
  let hash_val := fold_left (hash_round salt) password 867243217%Z in
  (hash_val mod 387942806485727)%Z.

(** ** class FlightSimulator

    Matrices hold floats, modelled by [R].  The engine side (entities,
    camera, overlay widgets, sky, ground mesh) is left out except for what
    the numeric pipeline reads or writes: the plane's position and rotation,
    its basis vectors [forward], [up], [right] (computed by the engine from
    the entity, taken as parameters) and the keyboard sample [held_keys]. *)

Module FlightSimulator.

Local Open Scope R_scope.

Definition matrix : Type := Matrix.t R.

(** The attributes [state_long] and [state_lat] hold whatever [+=] stored:
    a Matrix or the string ["Error"] that [__add__] returns. *)
Definition value : Type := Matrix.pyobj R.

Record Vec3 : Type := vec3 { vx : R; vy : R; vz : R }.

Definition vec_add (a b : Vec3) : Vec3 :=
  vec3 (vx a + vx b) (vy a + vy b) (vz a + vz b).

Definition vec_scale (a : Vec3) (k : R) : Vec3 :=
  vec3 (vx a * k) (vy a * k) (vz a * k).

Record Entity : Type := entity {
  position : Vec3;
  rotation_x : R;
  rotation_y : R;
  rotation_z : R
}.

Record flight_data : Type := mk_flight_data {
  time_data : list R;
  aoa_data : list R;
  velocity_data : list R;
  gforce_data : list R;
  altitude_data : list R
}.

Record sim : Type := mk_sim {
  A : matrix;
  B : matrix;
  C : matrix;
  D : matrix;
  state_long : value;
  state_lat : value;
  dt : R;
  flight_time : R;
  run : bool;
  menu_active : bool;
  crashed : bool;
  ground_y : R;
  elevator : R;
  aileron : R;
  rudder : R;
  plane : Entity;
  log : flight_data;
  (* the module-level globals written by end_simulation *)
  global_flight_time : R;
  global_crashed : bool;
  (* the data handed to PostFlight, once end_simulation has run *)
  post_flight : option flight_data
}.

Definition set_state_long (s : sim) (v : value) : sim :=
  mk_sim (A s) (B s) (C s) (D s) v (state_lat s) (dt s) (flight_time s)
         (run s) (menu_active s) (crashed s) (ground_y s)
         (elevator s) (aileron s) (rudder s) (plane s) (log s)
         (global_flight_time s) (global_crashed s) (post_flight s).

Definition set_state_lat (s : sim) (v : value) : sim :=
  mk_sim (A s) (B s) (C s) (D s) (state_long s) v (dt s) (flight_time s)
         (run s) (menu_active s) (crashed s) (ground_y s)
         (elevator s) (aileron s) (rudder s) (plane s) (log s)
         (global_flight_time s) (global_crashed s) (post_flight s).

Definition set_flight_time (s : sim) (v : R) : sim :=
  mk_sim (A s) (B s) (C s) (D s) (state_long s) (state_lat s) (dt s) v
         (run s) (menu_active s) (crashed s) (ground_y s)
         (elevator s) (aileron s) (rudder s) (plane s) (log s)
         (global_flight_time s) (global_crashed s) (post_flight s).

Definition set_run (s : sim) (v : bool) : sim :=
  mk_sim (A s) (B s) (C s) (D s) (state_long s) (state_lat s) (dt s)
         (flight_time s) v (menu_active s) (crashed s) (ground_y s)
         (elevator s) (aileron s) (rudder s) (plane s) (log s)
         (global_flight_time s) (global_crashed s) (post_flight s).

Definition set_menu_active (s : sim) (v : bool) : sim :=
  mk_sim (A s) (B s) (C s) (D s) (state_long s) (state_lat s) (dt s)
         (flight_time s) (run s) v (crashed s) (ground_y s)
         (elevator s) (aileron s) (rudder s) (plane s) (log s)
         (global_flight_time s) (global_crashed s) (post_flight s).

Definition set_crashed (s : sim) (v : bool) : sim :=
  mk_sim (A s) (B s) (C s) (D s) (state_long s) (state_lat s) (dt s)
         (flight_time s) (run s) (menu_active s) v (ground_y s)
         (elevator s) (aileron s) (rudder s) (plane s) (log s)
         (global_flight_time s) (global_crashed s) (post_flight s).

Definition set_controls (s : sim) (e a r : R) : sim :=
  mk_sim (A s) (B s) (C s) (D s) (state_long s) (state_lat s) (dt s)
         (flight_time s) (run s) (menu_active s) (crashed s) (ground_y s)
         e a r (plane s) (log s)
         (global_flight_time s) (global_crashed s) (post_flight s).

Definition set_plane (s : sim) (p : Entity) : sim :=
  mk_sim (A s) (B s) (C s) (D s) (state_long s) (state_lat s) (dt s)
         (flight_time s) (run s) (menu_active s) (crashed s) (ground_y s)
         (elevator s) (aileron s) (rudder s) p (log s)
         (global_flight_time s) (global_crashed s) (post_flight s).

Definition set_log (s : sim) (l : flight_data) : sim :=
  mk_sim (A s) (B s) (C s) (D s) (state_long s) (state_lat s) (dt s)
         (flight_time s) (run s) (menu_active s) (crashed s) (ground_y s)
         (elevator s) (aileron s) (rudder s) (plane s) l
         (global_flight_time s) (global_crashed s) (post_flight s).

Definition set_post_flight (s : sim) (ft : R) (cr : bool) (d : flight_data) : sim :=
  mk_sim (A s) (B s) (C s) (D s) (state_long s) (state_lat s) (dt s)
         (flight_time s) (run s) (menu_active s) (crashed s) (ground_y s)
         (elevator s) (aileron s) (rudder s) (plane s) (log s)
         ft cr (Some d).

(** The 4x1 vector [Matrix([[0], [0], [0], [0]])]. *)
Definition zero_state : matrix := Matrix [[0]; [0]; [0]; [0]].

(** [__init__], after [setup_physics] has loaded the four matrices and
    placed the plane at [(0, -2, 20)]. *)
Definition init (a b c d : matrix) : sim :=
  mk_sim a b c d (PMat zero_state) (PMat zero_state)
         0.01667 0 true false false (-100)
         0 0 0
         (entity (vec3 0 (-2) 20) 0 0 0)
         (mk_flight_data [] [] [] [] [])
         0 false None.

(** [setup_physics]: the parsed rows are sliced four by four. *)
Definition slice {X : Type} (l : list X) (lo hi : nat) : list X :=
  firstn (hi - lo) (skipn lo l).

Definition setup_physics (matrix_combo : list (list R)) : sim :=
  init (Matrix (slice matrix_combo 0 4)) (Matrix (slice matrix_combo 4 8))
       (Matrix (slice matrix_combo 8 12)) (Matrix (slice matrix_combo 12 16)).

(** [toggle_menu] and [resume_game] (key and button handlers, not part of
    the per-tick update). *)
Definition toggle_menu (s : sim) : sim :=
  let s := set_menu_active s (negb (menu_active s)) in
  set_run s (negb (menu_active s)).

Definition resume_game (s : sim) : sim :=
  set_run (set_menu_active s false) true.

(** [update_control_surface(control, increase_key, decrease_key, maximum)]
    with [held_keys] the keyboard sample of the tick. *)
Definition update_control_surface (held_keys : string -> bool) (dt : R)
    (control : R) (increase_key decrease_key : string) (maximum : R) : R :=
  let control :=
    if held_keys increase_key && (if Rlt_dec control maximum then true else false)
    then control + 3 * dt
    else if held_keys decrease_key
            && (if Rgt_dec control (- maximum) then true else false)
    then control - 3 * dt
    else if Rgt_dec control 0 then control - 5 * dt
    else if Rlt_dec control 0 then control + 5 * dt
    else control in
  if (if Rlt_dec (Rabs control) (10 * dt) then true else false)
     && negb (held_keys increase_key || held_keys decrease_key)
  then 0
  else control.

Definition update_control_inputs (held_keys : string -> bool) (s : sim) : sim :=
  let e := update_control_surface held_keys (dt s) (elevator s) "w" "s" 5 in
  let a := update_control_surface held_keys (dt s) (aileron s) "e" "q" 5 in
  let r := update_control_surface held_keys (dt s) (rudder s) "a" "d" 5 in
  set_controls s e a r.

(** The operators as they occur in [update_state_vectors].

    [m * v] with a Matrix on the left: [__mul__] tests [isinstance]; a
    string on the right takes the scalar branch, where every
    [float * str] raises. *)
Definition mat_mul (m : matrix) (v : value) : res value :=
  match v with
  | PMat b => Matrix.mul m (OMat b)
  | PNum k => Matrix.mul m (ONum k)
  | PStr _ =>
      r <- mapM (fun i =>
                   mapM (fun j => x <- Matrix.at2 m i j ;;
                                  (Raise TypeError : res R))
                        (seq 0 (Matrix.width m)))
                (seq 0 (Matrix.height m)) ;;
      Ok (PMat (Matrix r))
  end.

(** [l + r]: [Matrix.__add__] reads [other.height]; a string on the left
    has no [+] with a Matrix. *)
Definition py_add (l r : value) : res value :=
  match l, r with
  | PMat a, PMat b => Matrix.add a b
  | PMat _, _ => Raise AttributeError
  | PNum x, PNum y => Ok (PNum (x + y))
  | PStr a, PStr b => Ok (PStr (a ++ b))
  | _, _ => Raise TypeError
  end.

(** [v * k] for a float [k]. *)
Definition times (v : value) (k : R) : res value :=
  match v with
  | PMat m => Matrix.mul m (ONum k)
  | PNum x => Ok (PNum (x * k))
  | PStr _ => Raise TypeError
  end.

Definition update_state_vectors (s : sim) : res sim :=
  ax <- mat_mul (A s) (state_long s) ;;
  bu <- Matrix.mul (B s) (ONum (elevator s)) ;;
  sum <- py_add ax bu ;;
  delta <- times sum (dt s) ;;
  new_long <- py_add (state_long s) delta ;;
  let s := set_state_long s new_long in
  cx <- mat_mul (C s) (state_lat s) ;;
  du <- Matrix.mul (D s) (OMat (Matrix [[aileron s]; [rudder s]])) ;;
  sum <- py_add cx du ;;
  delta <- times sum (dt s) ;;
  new_lat <- py_add (state_lat s) delta ;;
  Ok (set_state_lat s new_lat).

(** [v.getmatrix()[i][j]] *)
Definition entry (v : value) (i j : nat) : res R :=
  match v with
  | PMat m => Matrix.at2 m i j
  | _ => Raise AttributeError
  end.

(** The local variables of [update_plane]. *)
Record frame : Type := mk_frame {
  sidelip_angle : R;
  pitch_angle : R;
  yaw_angle : R;
  roll_angle : R;
  cruise_speed : R;
  v : R;
  fv : R;
  vv : R;
  hv : R
}.

Definition movment_scale : R := 1e-3.

Definition frame_of (s : sim) : res frame :=
  b <- entry (state_lat s) 0 0 ;;
  let sidelip_angle := b / 57.2958 in
  th <- entry (state_long s) 2 0 ;;
  let pitch_angle := - th / 57.2958 in
  ps <- entry (state_lat s) 2 0 ;;
  let yaw_angle := ps / 57.2958 in
  ph <- entry (state_lat s) 3 0 ;;
  let roll_angle := ph / 57.2958 in
  cruise_speed <- Matrix.at2 (A s) 1 2 ;;
  u <- entry (state_long s) 0 0 ;;
  let v := u + cruise_speed in
  let fv := v * cos sidelip_angle in
  vv <- entry (state_long s) 1 0 ;;
  let hv := v * sin sidelip_angle in
  Ok (mk_frame sidelip_angle pitch_angle yaw_angle roll_angle
               cruise_speed v fv vv hv).

Section Engine.

(** The plane's basis vectors, as the engine derives them from the entity. *)
Variables forward up right : Entity -> Vec3.

Definition move (p : Entity) (d : Vec3) : Entity :=
  entity (vec_add (position p) d) (rotation_x p) (rotation_y p) (rotation_z p).

Definition update_plane (s : sim) : res sim :=
  f <- frame_of s ;;
  let p := plane s in
  let p := entity (position p)
             (rotation_x p
              + 57.2958 * (pitch_angle f * cos (roll_angle f)
                           + yaw_angle f * sin (roll_angle f)) * dt s)
             (rotation_y p)
             (rotation_z p) in
  let p := entity (position p)
             (rotation_x p)
             (rotation_y p
              + 57.2958 * (pitch_angle f * sin (roll_angle f)
                           + yaw_angle f * cos (roll_angle f)) * dt s)
             (rotation_z p) in
  let p := entity (position p) (rotation_x p) (rotation_y p)
             (57.2958 * roll_angle f) in
  let p := move p (vec_scale (vec_scale (vec_scale (forward p) (fv f)) (dt s))
                             movment_scale) in
  let p := move p (vec_scale (vec_scale (vec_scale (up p) (vv f)) (dt s))
                             movment_scale) in
  let p := move p (vec_scale (vec_scale (vec_scale (vec_scale (right p) (hv f))
                                                   (dt s))
                                        movment_scale) 50) in
  Ok (set_plane s p).

(** [check_ground_collision]: the crash message, the button and the red
    tint are widgets. *)
Definition check_ground_collision (s : sim) : sim :=
  let aircraft_lowest_point := vy (position (plane s)) - 1 in
  if Rle_dec aircraft_lowest_point (ground_y s)
  then set_run (set_crashed s true) false
  else s.

(** [lst[-1]] and [lst[-2]] *)
Definition from_end (l : list R) (k : nat) : res R := getitem (rev l) k.

Definition update_data (s : sim) : res sim :=
  let l := log s in
  let time_data' := time_data l ++ [flight_time s] in
  aoa <- entry (state_long s) 1 0 ;;
  let aoa_data' := aoa_data l ++ [aoa] in
  cruise_speed <- Matrix.at2 (A s) 1 2 ;;
  u <- entry (state_long s) 0 0 ;;
  let velocity_data' := velocity_data l ++ [u + cruise_speed] in
  g_force <-
    (if (1 <? length velocity_data')%nat then
       v1 <- from_end velocity_data' 0 ;;
       v2 <- from_end velocity_data' 1 ;;
       if Req_dec_T (dt s) 0 then Raise ZeroDivisionError
       else Ok ((v1 - v2) / dt s / 9.81)
     else Ok 0) ;;
  let gforce_data' := gforce_data l ++ [g_force] in
  let altitude_data' :=
    altitude_data l ++ [vy (position (plane s)) - ground_y s] in
  Ok (set_log s (mk_flight_data time_data' aoa_data' velocity_data'
                                gforce_data' altitude_data')).

(** [end_simulation]: stores the globals and hands the collected data to
    PostFlight; destroying the entities is the engine's business. *)
Definition end_simulation (s : sim) : sim :=
  set_post_flight s (flight_time s) (crashed s) (log s).

(** [update], called by the engine every frame.  [update_camera] and
    [render_overlay] only write camera and widget attributes. *)
Definition update (held_keys : string -> bool) (s : sim) : res sim :=
  if negb (run s) && (negb (menu_active s) && negb (crashed s))
  then Ok s
  else if run s then
    let s := set_flight_time s (flight_time s + dt s) in
    let s := update_control_inputs held_keys s in
    s <- update_state_vectors s ;;
    s <- update_plane s ;;
    let s := check_ground_collision s in
    s <- update_data s ;;
    if Rgt_dec (flight_time s) 120
    then Ok (end_simulation (set_run s false))
    else Ok s
  else Ok s.

(** Consecutive frames, one keyboard sample per frame. *)
Fixpoint updates (samples : list (string -> bool)) (s : sim) : res sim :=
  match samples with
  | [] => Ok s
  | k :: rest => s' <- update k s ;; updates rest s'
  end.

End Engine.

(** The model has reached a terminal condition and stopped: [run] is off
    because of a ground collision or of the duration cap. *)
Definition Halted (s : sim) : Prop :=
  run s = false /\ (crashed s = true \/ flight_time s > 120).

(** Shapes of the fixed 4-state layout. *)
Definition shaped_value (h w : nat) (x : value) : Prop :=
  exists m, x = PMat m /\ Matrix.shaped h w m.

Record well_shaped (s : sim) : Prop := {
  shape_A : Matrix.shaped 4 4 (A s);
  shape_B : Matrix.shaped 4 1 (B s);
  shape_C : Matrix.shaped 4 4 (C s);
  shape_D : Matrix.shaped 4 2 (D s);
  shape_long : shaped_value 4 1 (state_long s);
  shape_lat : shaped_value 4 1 (state_lat s)
}.

(** What every frame keeps: the shapes and a nonzero dt. *)
Definition steady (s : sim) : Prop := well_shaped s /\ dt s <> 0.

Definition no_keys : string -> bool := fun _ => false.

(** A sample model: cruise speed [A[1][2]] = 50. *)
Definition sample_A : matrix :=
  Matrix [[-0.02; 0.1; 0; -9.81]; [-0.1; -1; 50; 0]; [0; 0; 0; 1]; [0.01; -0.5; -1; 0]].
Definition sample_B : matrix := Matrix [[0]; [-0.1]; [0]; [-2]].
Definition sample_C : matrix :=
  Matrix [[-0.1; 0; -1; 0.2]; [-2; -1; 0.5; 0]; [0; 0; 0; 1]; [0; 1; 0; 0]].
Definition sample_D : matrix := Matrix [[0; 0.05]; [3; 0.2]; [0; -1]; [0; 0]].
Definition sample_sim : sim := init sample_A sample_B sample_C sample_D.

(** A sample of the engine's basis vectors (an unrotated plane) and a model
    stopped by a ground collision. *)
Definition sample_forward : Entity -> Vec3 := fun _ => vec3 0 0 1.
Definition sample_up : Entity -> Vec3 := fun _ => vec3 0 1 0.
Definition sample_right : Entity -> Vec3 := fun _ => vec3 1 0 0.
Definition crashed_sim : sim := set_run (set_crashed sample_sim true) false.

(** No control key is down. *)
Definition idle (held_keys : string -> bool) : Prop :=
  forall k, In k ["w"; "s"; "e"; "q"; "a"; "d"]%string -> held_keys k = false.

(** Only the key [key] is down. *)
Definition only_key (key : string) : string -> bool := fun k => String.eqb k key.

(** The elevator after [n] frames of [update_control_inputs] under the
    same keyboard sample. *)
Fixpoint elevator_after (held_keys : string -> bool) (dt : R) (n : nat)
    (control : R) : R :=
  match n with
  | O => control
  | S n' =>
      update_control_surface held_keys dt
        (elevator_after held_keys dt n' control) "w" "s" 5
  end.

End FlightSimulator.

(** ** Strings and indexing shared by the account code *)

(** [a == b] on strings. *)
Fixpoint str_eqb (a b : pystr) : bool :=
  match a, b with
  | [], [] => true
  | x :: a', y :: b' => N.eqb x y && str_eqb a' b'
  | _, _ => false
  end.

(** [l[i]] for an integer [i]: negative indices count from the end. *)
Definition py_index {X : Type} (l : list X) (i : Z) : res X :=
  let n := Z.of_nat (length l) in
  if (0 <=? i)%Z then getitem l (Z.to_nat i)
  else if (- n <=? i)%Z then getitem l (Z.to_nat (n + i))
  else Raise IndexError.

(** ** class User, class UserManager

    The table [users] is modelled by its rows in insertion order and the
    AUTOINCREMENT counter.  Each SQL statement is replaced by the list
    operation it denotes: [SELECT ... WHERE col = ?] followed by
    [fetchone()] is the first matching row, [INSERT] appends a row with the
    next id, [UPDATE ... WHERE user_id = ?] rewrites the matching rows.
    [flight_minutes] receives float sums and is modelled by [R].
    [generate_salt] draws from a random source: the salt drawn is an
    argument. *)

Module UserManager.

Local Open Scope Z_scope.

Record row : Type := mk_row {
  row_user_id : Z;
  row_username : pystr;
  row_password_hash : Z;
  row_salt : Z;
  row_level : Z;
  row_flight_minutes : R
}.

Record User : Type := mk_User {
  user_id : Z;
  username : pystr;
  password_hash : Z;
  level : Z;
  flight_minutes : R
}.

Record t : Type := mk_db {
  users : list row;
  sequence : Z
}.

(** The table right after [create_table] on a new file. *)
Definition empty : t := mk_db [] 0.

(** The range of [generate_salt]: [randint(31, 2**32 - 1)]. *)
Definition salt_range (salt : Z) : Prop := 31 <= salt <= 2 ^ 32 - 1.

(** [SELECT ... FROM users WHERE username = ?] then [fetchone()] *)
Definition select_by_username (db : t) (name : pystr) : option row :=
  find (fun r => str_eqb (row_username r) name) (users db).

(** [SELECT ... FROM users WHERE user_id = ?] then [fetchone()] *)
Definition select_by_id (db : t) (id : Z) : option row :=
  find (fun r => row_user_id r =? id) (users db).

(** [INSERT INTO users (username, password_hash, salt, level)]; the column
    [flight_minutes] takes its default 0. *)
Definition insert (db : t) (name : pystr) (hash salt lvl : Z) : t :=
  let id := sequence db + 1 in
  mk_db (users db ++ [mk_row id name hash salt lvl 0%R]) id.

(** [UPDATE users SET ... WHERE user_id = ?] *)
Definition update_where_id (f : row -> row) (id : Z) (db : t) : t :=
  mk_db (map (fun r => if row_user_id r =? id then f r else r) (users db))
        (sequence db).

Definition set_level (lvl : Z) (r : row) : row :=
  mk_row (row_user_id r) (row_username r) (row_password_hash r) (row_salt r)
         lvl (row_flight_minutes r).

Definition set_flight_minutes (m : R) (r : row) : row :=
  mk_row (row_user_id r) (row_username r) (row_password_hash r) (row_salt r)
         (row_level r) m.

Definition add_default_user (db : t) (salt : Z) : t :=
  let username := of_string "test" in
  let password := of_string "password" in
  let password_hash := hash_password password salt in
  match select_by_username db username with
  | Some _ => db
  | None => insert db username password_hash salt 4
  end.

(** [__init__] on the table found in the file. *)
Definition init (db : t) (salt : Z) : t := add_default_user db salt.

(** [register_user]: the level column takes its default 1. *)
Definition register_user (db : t) (username password : pystr) (salt : Z)
    : bool * t :=
  match select_by_username db username with
  | Some _ => (false, db)
  | None =>
      let password_hash := hash_password password salt in
      (true, insert db username password_hash salt 1)
  end.

Definition login (db : t) (username password : pystr) : option User :=
  match select_by_username db username with
  | Some user_data =>
      if row_password_hash user_data
         =? hash_password password (row_salt user_data)
      then Some (mk_User (row_user_id user_data) (row_username user_data)
                         (row_password_hash user_data) (row_level user_data)
                         (row_flight_minutes user_data))
      else None
  | None => None
  end.

Definition update_level (db : t) (user_id new_level : Z) : Z * t :=
  let new_level :=
    if new_level <? 1 then 1
    else if new_level >? 10 then 10
    else new_level in
  (new_level, update_where_id (set_level new_level) user_id db).

(** [fetchone()[0]] on a missing row subscripts [None]. *)
Definition update_flight_minutes (db : t) (user_id : Z) (minutes_to_add : R)
    : res (R * t) :=
  match select_by_id db user_id with
  | None => Raise TypeError
  | Some r =>
      let current_minutes := row_flight_minutes r in
      let new_total := (current_minutes + minutes_to_add)%R in
      Ok (new_total, update_where_id (set_flight_minutes new_total) user_id db)
  end.

End UserManager.

(** ** class PlaneManager *)

Module PlaneManager.

Local Open Scope Z_scope.

Record row : Type := mk_row {
  level : Z;
  name : pystr;
  obj_path : pystr;
  texture_path : pystr;
  description_path : pystr;
  matrix_path : pystr;
  thumbnail_path : pystr
}.

Record t : Type := mk_db {
  planes : list row;
  sequence : Z
}.

Definition empty : t := mk_db [] 0.

(** [add_plane]: the primary key [level] is the AUTOINCREMENT id. *)
Definition add_plane (db : t)
    (name obj_path texture_path description_path matrix_path thumbnail_path : pystr)
    : t :=
  let id := sequence db + 1 in
  mk_db (planes db ++ [mk_row id name obj_path texture_path description_path
                              matrix_path thumbnail_path]) id.

(** Rows in ascending [level]: insertion sort, as [ORDER BY level] orders. *)
Fixpoint insert_by_level (r : row) (l : list row) : list row :=
  match l with
  | [] => [r]
  | r' :: l' => if level r <=? level r' then r :: l
                else r' :: insert_by_level r l'
  end.

Definition order_by_level (l : list row) : list row :=
  fold_right insert_by_level [] l.

(** [(level, name, thumbnail_path, description_path)] of every plane. *)
Definition get_all_planes_info (db : t) : list (Z * pystr * pystr * pystr) :=
  map (fun r => (level r, name r, thumbnail_path r, description_path r))
      (order_by_level (planes db)).

(** [(obj_path, texture_path, matrix_path)] of the plane called [name], or
    [None]. *)
Definition get_plane_physics (db : t) (plane_name : pystr)
    : option (pystr * pystr * pystr) :=
  match find (fun r => str_eqb (name r) plane_name) (planes db) with
  | Some r => Some (obj_path r, texture_path r, matrix_path r)
  | None => None
  end.

Definition default_planes : list (string * string * string * string * string * string) :=
  [("Cessna-172", "planes/Cessna-172/cessna.obj", "planes/Cessna-172/texture.png",
    "planes/Cessna-172/desc.txt", "planes/Cessna-172/matrix.txt",
    "planes/Cessna-172/thumbnail.jpg");
   ("Boeing-737", "planes/Boeing-737/boeing.bam", "planes/Boeing-737/texture.png",
    "planes/Boeing-737/desc.txt", "planes/Boeing-737/matrix.txt",
    "planes/Boeing-737/thumbnail.jpg");
   ("Spitfire", "planes/Spitfire/spitfire.obj", "planes/Spitfire/texture.png",
    "planes/Spitfire/desc.txt", "planes/Spitfire/matrix.txt",
    "planes/Spitfire/thumbnail.jpg");
   ("ORCA", "planes/ORCA/ORCA.bam", "planes/ORCA/texture.png",
    "planes/ORCA/desc.txt", "planes/ORCA/matrix.txt",
    "planes/ORCA/thumbnail.png");
   ("X-Wing", "planes/X-Wing/xwing.obj", "planes/X-Wing/texture.png",
    "planes/X-Wing/desc.txt", "planes/X-Wing/matrix.txt",
    "planes/X-Wing/thumbnail.jpg")]%string.

Definition populate_planes (db : t) : t :=
  if Z.of_nat (length (planes db)) =? 0 then
    fold_left (fun db plane =>
                 match plane with
                 | (p0, p1, p2, p3, p4, p5) =>
                     add_plane db (of_string p0) (of_string p1) (of_string p2)
                               (of_string p3) (of_string p4) (of_string p5)
                 end)
              default_planes db
  else db.

(** [__init__] on the table found in the file. *)
Definition init (db : t) : t := populate_planes db.

End PlaneManager.

(** ** class RegisterScreen: attempt_register

    The message left in [info_text] stands for the outcome.  [strip()]
    removes the characters for which [isspace] holds from both ends; the
    predicate is Python's and is taken as a parameter. *)

Module RegisterScreen.

Inductive info_text : Type :=
| EmptyFields        (* "Username and password cannot be empty!" *)
| TooShort           (* "Password must be atleast 8 characters long!" *)
| ThreeIdentical     (* "Password cannot have 3 consecutive identical characters!" *)
| IdenticalPairs     (* "Password cannot have consecutive identical character pairs!" *)
| Successful         (* "Registration successful! Returning to login..." *)
| UsernameExists.    (* "Username already exists. Try another one." *)

Fixpoint lstrip (isspace : N -> bool) (s : pystr) : pystr :=
  match s with
  | [] => []
  | c :: s' => if isspace c then lstrip isspace s' else s
  end.

Definition strip (isspace : N -> bool) (s : pystr) : pystr :=
  rev (lstrip isspace (rev (lstrip isspace s))).

(** [password[i]] inside the loops, where [i] is in range. *)
Definition char_at (password : pystr) (i : nat) : N := nth i password 0%N.

(** The first [for] loop: some [i] in [range(len(password) - 2)] has
    [password[i] == password[i + 1] == password[i + 2]]. *)
Definition three_identical (password : pystr) : bool :=
  existsb (fun i => N.eqb (char_at password i) (char_at password (i + 1))
                    && N.eqb (char_at password (i + 1)) (char_at password (i + 2)))
          (seq 0 (length password - 2)).

(** The second [for] loop: some [i] in [range(len(password) - 3)] has
    [password[i:i + 2] == password[i + 2:i + 4]]. *)
Definition identical_pairs (password : pystr) : bool :=
  existsb (fun i => str_eqb (FlightSimulator.slice password i (i + 2))
                            (FlightSimulator.slice password (i + 2) (i + 4)))
          (seq 0 (length password - 3)).

Definition is_empty (s : pystr) : bool :=
  match s with [] => true | _ => false end.

Definition attempt_register (isspace : N -> bool) (db : UserManager.t)
    (username_field password_field : pystr) (salt : Z)
    : info_text * UserManager.t :=
  let username := strip isspace username_field in
  let password := strip isspace password_field in
  if is_empty username || is_empty password then (EmptyFields, db)
  else if length password <? 8 then (TooShort, db)
  else if three_identical password then (ThreeIdentical, db)
  else if identical_pairs password then (IdenticalPairs, db)
  else
    match UserManager.register_user db username password salt with
    | (true, db') => (Successful, db')
    | (false, db') => (UsernameExists, db')
    end.

End RegisterScreen.

(** ** class LoginScreen: attempt_login

    The global [current_user] is part of the result. *)

Module LoginScreen.

Definition attempt_login (db : UserManager.t) (current_user : option UserManager.User)
    (username password : pystr) : bool * option UserManager.User :=
  match UserManager.login db username password with
  | Some user => (true, Some user)
  | None => (false, current_user)
  end.

End LoginScreen.

(** ** class MainMenu: the default selection of [__init__] *)

Module MainMenu.

Definition plane_info : Type := (Z * pystr * pystr * pystr)%type.

Definition info_level (p : plane_info) : Z := fst (fst (fst p)).
Definition info_name (p : plane_info) : pystr := snd (fst (fst p)).

(** [lst[-1]] *)
Definition last_item {X : Type} (l : list X) : res X := getitem (rev l) 0.

(** The plane passed to [set_plane] at the end of [__init__]: the last
    plane whose level does not exceed the user's, else the first plane. *)
Definition default_selection (planes : list plane_info) (user_level : Z)
    : res pystr :=
  let available_planes :=
    map info_name (filter (fun p => (info_level p <=? user_level)%Z) planes) in
  match available_planes with
  | _ :: _ => last_item available_planes
  | [] => p <- getitem planes 0 ;; Ok (info_name p)
  end.

(** Whether the button of a plane is enabled. *)
Definition unlocked (p : plane_info) (user_level : Z) : bool :=
  (info_level p <=? user_level)%Z.

End MainMenu.

(** ** class PostFlight: the level bookkeeping of [__init__]

    [flight_time], [crashed] and [current_user] are the module globals.
    [__init__] opens its own [UserManager()], whose constructor runs
    [add_default_user] with a fresh salt. *)

Module PostFlight.

Local Open Scope R_scope.

Definition required_minutes : list Z := [0; 2; 4; 7; 10; 13; 16; 19; 22; 25]%Z.

Record t : Type := mk_PostFlight {
  level_up : bool;
  level_down : bool;
  new_level : Z;
  new_total_minutes : R;
  (* the value shown by progress_text, when that text is created *)
  minutes_to_next : option R
}.

Definition with_level (u : UserManager.User) (lvl : Z) : UserManager.User :=
  UserManager.mk_User (UserManager.user_id u) (UserManager.username u)
                      (UserManager.password_hash u) lvl
                      (UserManager.flight_minutes u).

Definition init (db : UserManager.t) (salt : Z)
    (current_user : option UserManager.User)
    (flight_time : R) (crashed : bool)
    : res (t * UserManager.t * option UserManager.User) :=
  let minutes_to_add := flight_time / 60 in
  match current_user with
  | None => Ok (mk_PostFlight false false 1 0 None, db, None)
  | Some user =>
      let level := UserManager.level user in
      let db := UserManager.init db salt in
      r <- UserManager.update_flight_minutes db (UserManager.user_id user)
                                             minutes_to_add ;;
      let (new_total_minutes, db) := r in
      r <- (if crashed && (level >? 1)%Z then
              let (l, db) := UserManager.update_level db (UserManager.user_id user)
                                                      (level - 1) in
              Ok (false, true, l, db)
            else if negb crashed
                    && (if Rge_dec minutes_to_add 1 then true else false) then
              let next_level := (level + 1)%Z in
              if (next_level <=? 10)%Z then
                required <- py_index required_minutes (next_level - 1) ;;
                if Rge_dec new_total_minutes (IZR required) then
                  let (l, db) :=
                    UserManager.update_level db (UserManager.user_id user)
                                             next_level in
                  Ok (true, false, l, db)
                else Ok (false, false, level, db)
              else Ok (false, false, level, db)
            else Ok (false, false, level, db)) ;;
      match r with
      | (level_up, level_down, new_level, db) =>
          let user := with_level user new_level in
          progress <-
            (if level_up then Ok None
             else if level_down then Ok None
             else
               required <- py_index required_minutes (UserManager.level user) ;;
               let minutes_to_next := IZR required - new_total_minutes in
               if Rlt_dec minutes_to_next 0 then Ok (Some 0)
               else Ok (Some minutes_to_next)) ;;
          Ok (mk_PostFlight level_up level_down new_level new_total_minutes
                            progress, db, Some user)
      end
  end.

End PostFlight.

(** ** Invariants stated about the code above *)

(** The five series of the flight log have one entry per frame each. *)
Definition aligned (l : FlightSimulator.flight_data) : Prop :=
  let n := length (FlightSimulator.time_data l) in
  length (FlightSimulator.aoa_data l) = n /\
  length (FlightSimulator.velocity_data l) = n /\
  length (FlightSimulator.gforce_data l) = n /\
  length (FlightSimulator.altitude_data l) = n.

(** The bound the guards of [update_control_surface] keep: at most one
    increment of 3*dt past the maximum 5. *)
Definition controls_bounded (s : FlightSimulator.sim) : Prop :=
  (0 <= FlightSimulator.dt s <= 5 / 2)%R /\
  (Rabs (FlightSimulator.elevator s) <= 5 + 3 * FlightSimulator.dt s)%R /\
  (Rabs (FlightSimulator.aileron s) <= 5 + 3 * FlightSimulator.dt s)%R /\
  (Rabs (FlightSimulator.rudder s) <= 5 + 3 * FlightSimulator.dt s)%R.

(** What the schema of [users] demands of the rows: [username] UNIQUE,
    [user_id] a primary key handed out by the counter, and integers that
    fit SQLite's signed 64-bit INTEGER. *)
Definition consistent (db : UserManager.t) : Prop :=
  NoDup (map UserManager.row_username (UserManager.users db)) /\
  NoDup (map UserManager.row_user_id (UserManager.users db)) /\
  Forall (fun r => (1 <= UserManager.row_user_id r <= UserManager.sequence db)%Z
                   /\ (0 <= UserManager.row_password_hash r < 2 ^ 63)%Z)
         (UserManager.users db) /\
  (0 <= UserManager.sequence db)%Z.

(** ** The specification's wording of submatrix and determinant

    These two definitions follow the text of the specification, to be
    compared with [Matrix.sub] and [Matrix.det]. *)

Definition remove_nth {X : Type} (n : nat) (l : list X) : list X :=
  firstn n l ++ skipn (S n) l.

(** "returns the matrix with the specified row and column removed" *)
Definition submatrix_spec {T : Type} (m : Matrix.t T) (excludeRow excludeCol : nat)
    : Matrix.t T :=
  Matrix (map (remove_nth excludeCol) (remove_nth excludeRow (Matrix.data m))).

(** "Laplace expansion along the first row: for each column index i, the
    submatrix obtained by deleting row 0 and column i, its determinant
    multiplied by the element at [0][i] and by (-1)^i, accumulated." *)
Fixpoint laplace_rec (fuel : nat) (m : Matrix.t Z) : Z :=
  match Matrix.data m with
  | [[x]] => x
  | first_row :: _ =>
      match fuel with
      | O => 0%Z
      | S fuel' =>
          fold_left (fun acc i =>
                       (acc + nth i first_row 0 * laplace_rec fuel' (submatrix_spec m 0 i)
                              * (-1) ^ Z.of_nat i)%Z)
                    (seq 0 (length first_row)) 0%Z
      end
  | [] => 0%Z
  end.

Definition laplace_det (m : Matrix.t Z) : Z := laplace_rec (Matrix.height m) m.

Definition identity (n : nat) : Matrix.t Z :=
  Matrix (map (fun i => map (fun j => if i =? j then 1%Z else 0%Z) (seq 0 n))
              (seq 0 n)).

Definition has_zero_row (m : Matrix.t Z) : Prop :=
  exists row, In row (Matrix.data m) /\ Forall (fun x => x = 0%Z) row.

(** * Properties *)

(** ** Loops *)

Lemma mapM_Forall {X Y : Type} (P : Y -> Prop) (f : X -> res Y) (l : list X) :
  (forall a, In a l -> exists b, f a = Ok b /\ P b) ->
  exists r, mapM f l = Ok r /\ length r = length l /\ Forall P r.
Proof.
  induction l as [|a l IH]; intros Hf.
  - exists []. simpl. auto.
  - destruct (Hf a (or_introl eq_refl)) as (b & Eb & Pb).
    destruct IH as (r & Er & Lr & Fr).
    { intros a' Ha'. apply Hf. now right. }
    exists (b :: r). simpl. rewrite Eb. simpl. rewrite Er. simpl.
    repeat split; [congruence | now constructor].
Qed.

Lemma foldM_total {X S : Type} (f : S -> X -> res S) (l : list X) :
  (forall s a, In a l -> exists s', f s a = Ok s') ->
  forall s, exists s', foldM f l s = Ok s'.
Proof.
  induction l as [|a l IH]; intros Hf s.
  - exists s. reflexivity.
  - destruct (Hf s a (or_introl eq_refl)) as (s1 & E1).
    simpl. rewrite E1. simpl. apply IH.
    intros s2 a' Ha'. apply Hf. now right.
Qed.

(** ** Shapes *)

Section Shapes.

Context {T : Type} `{Number T}.

Local Abbreviation shaped := Matrix.shaped.

Lemma shaped_height (h w : nat) (m : Matrix.t T) :
  shaped h w m -> Matrix.height m = h.
Proof. intros [Hh _]. exact Hh. Qed.

Lemma shaped_width (h w : nat) (m : Matrix.t T) :
  shaped h w m -> (0 < h)%nat -> Matrix.width m = w.
Proof.
  intros [Hh Hw] Hpos. unfold Matrix.width.
  destruct (Matrix.data m) as [|row rows]; simpl in *; [lia|].
  now inversion Hw.
Qed.

Lemma at2_shaped (h w : nat) (m : Matrix.t T) (i j : nat) :
  shaped h w m -> (i < h)%nat -> (j < w)%nat ->
  exists x, Matrix.at2 m i j = Ok x.
Proof.
  intros [Hh Hw] Hi Hj. unfold Matrix.at2, getitem.
  destruct (nth_error (Matrix.data m) i) as [row|] eqn:Ei.
  - simpl. assert (Hl : length row = w).
    { rewrite Forall_forall in Hw. apply Hw. eapply nth_error_In; eauto. }
    destruct (nth_error row j) as [x|] eqn:Ej; [eauto|].
    apply nth_error_None in Ej. lia.
  - apply nth_error_None in Ei. lia.
Qed.

Lemma rows_shaped (h w : nat) (f : nat -> res (list T)) :
  (forall i, (i < h)%nat -> exists row, f i = Ok row /\ length row = w) ->
  exists r, mapM f (seq 0 h) = Ok r /\ shaped h w (Matrix r).
Proof.
  intros Hf.
  destruct (mapM_Forall (fun row => length row = w) f (seq 0 h)) as (r & Er & Lr & Fr).
  { intros i Hi. apply in_seq in Hi. apply Hf. lia. }
  exists r. split; [exact Er|]. split; simpl; [now rewrite Lr, length_seq | exact Fr].
Qed.

Lemma row_total (w : nat) (f : nat -> res T) :
  (forall j, (j < w)%nat -> exists x, f j = Ok x) ->
  exists row, mapM f (seq 0 w) = Ok row /\ length row = w.
Proof.
  intros Hf.
  destruct (mapM_Forall (fun _ => True) f (seq 0 w)) as (r & Er & Lr & _).
  { intros j Hj. apply in_seq in Hj. destruct (Hf j) as (x & Ex); [lia|eauto]. }
  exists r. split; [exact Er | now rewrite Lr, length_seq].
Qed.

Lemma add_shaped (h w : nat) (a b : Matrix.t T) :
  shaped h w a -> shaped h w b ->
  exists c, Matrix.add a b = Ok (PMat c) /\ shaped h w c.
Proof.
  intros Ha Hb. unfold Matrix.add.
  rewrite (shaped_height Ha), (shaped_height Hb), Nat.eqb_refl. simpl.
  destruct (Nat.eq_dec h 0) as [->|Hpos].
  - simpl. destruct Ha as [Ha _]. destruct a as [da], b as [db]. simpl in *.
    apply length_zero_iff_nil in Ha. subst da.
    destruct Hb as [Hb _]. simpl in Hb. apply length_zero_iff_nil in Hb. subst db.
    simpl. exists (Matrix []). split; [reflexivity|].
    split; [reflexivity | constructor].
  - rewrite (shaped_width Ha), (shaped_width Hb), Nat.eqb_refl by lia. simpl.
    destruct (@rows_shaped h w
                (fun i => mapM (fun j => x <- Matrix.at2 a i j ;;
                                         y <- Matrix.at2 b i j ;;
                                         Ok (num_add x y)) (seq 0 w)))
      as (r & Er & Sr).
    { intros i Hi. apply (@row_total w). intros j Hj.
      destruct (at2_shaped Ha Hi Hj) as (x & ->).
      destruct (at2_shaped Hb Hi Hj) as (y & ->).
      simpl. eauto. }
    rewrite Er. simpl. eauto.
Qed.

Lemma mul_scalar_shaped (h w : nat) (a : Matrix.t T) (k : T) :
  shaped h w a ->
  exists c, Matrix.mul a (ONum k) = Ok (PMat c) /\ shaped h w c.
Proof.
  intros Ha. unfold Matrix.mul. rewrite (shaped_height Ha).
  destruct (Nat.eq_dec h 0) as [->|Hpos].
  - simpl. exists (Matrix []). split; [reflexivity|].
    split; [reflexivity | constructor].
  - rewrite (shaped_width Ha) by lia.
    destruct (@rows_shaped h w
                (fun i => mapM (fun j => x <- Matrix.at2 a i j ;;
                                         Ok (num_mul x k)) (seq 0 w)))
      as (r & Er & Sr).
    { intros i Hi. apply (@row_total w). intros j Hj.
      destruct (at2_shaped Ha Hi Hj) as (x & ->). simpl. eauto. }
    rewrite Er. simpl. eauto.
Qed.

Lemma mul_matrix_shaped (h n w : nat) (a b : Matrix.t T) :
  (0 < h)%nat -> (0 < n)%nat ->
  shaped h n a -> shaped n w b ->
  exists c, Matrix.mul a (OMat b) = Ok (PMat c) /\ shaped h w c.
Proof.
  intros Hh Hn Ha Hb. unfold Matrix.mul.
  rewrite (shaped_width Ha Hh), (shaped_height Hb), Nat.eqb_refl. simpl.
  rewrite (shaped_height Ha), (shaped_width Hb Hn).
  destruct (@rows_shaped h w
              (fun i => mapM (fun j =>
                                foldM (fun sum_val k =>
                                         x <- Matrix.at2 a i k ;;
                                         y <- Matrix.at2 b k j ;;
                                         Ok (num_add sum_val (num_mul x y)))
                                      (seq 0 n) (num_of_Z 0))
                             (seq 0 w)))
    as (r & Er & Sr).
  { intros i Hi. apply (@row_total w). intros j Hj.
    apply foldM_total. intros acc k Hk. apply in_seq in Hk.
    destruct (at2_shaped (i := i) (j := k) Ha) as (x & ->); [lia | lia |].
    destruct (at2_shaped (i := k) (j := j) Hb) as (y & ->); [lia | lia |].
    simpl. eauto. }
  rewrite Er. simpl. eauto.
Qed.

End Shapes.

(** ** Matrix: shape errors *)



(** ** Matrix: sub and det *)

(** A loop over [range] that skips one index and reads element [j - k] of
    [l] at index [j] collects [l] without that element. *)
Lemma mapM_skip_index {X : Type} (g : nat -> res X) (y : nat) (l : list X) :
  forall k,
    (forall j x, nth_error l j = Some x -> g (k + j)%nat = Ok x) ->
    mapM g (filter (fun j => negb (j =? y)) (seq k (length l)))
    = Ok (if y <? k then l else remove_nth (y - k) l).
Proof.
  induction l as [|x l IH]; intros k Hg.
  - simpl. unfold remove_nth. rewrite firstn_nil, skipn_nil.
    now destruct (y <? k).
  - cbn [length seq filter].
    assert (Hx : g k = Ok x).
    { rewrite <- (Nat.add_0_r k). now apply Hg. }
    assert (Hrest : forall j x', nth_error l j = Some x' -> g (S k + j)%nat = Ok x').
    { intros j x' Hj. replace (S k + j)%nat with (k + S j)%nat by lia. now apply Hg. }
    specialize (IH (S k) Hrest).
    destruct (k =? y) eqn:Eky; cbn [negb].
    + apply Nat.eqb_eq in Eky. subst y. rewrite IH.
      replace (k <? S k) with true by (symmetry; apply Nat.ltb_lt; lia).
      replace (k <? k) with false by (symmetry; apply Nat.ltb_ge; lia).
      now rewrite Nat.sub_diag.
    + apply Nat.eqb_neq in Eky. cbn [mapM]. rewrite Hx, IH. cbn [bind].
      destruct (y <? k) eqn:Eyk.
      * apply Nat.ltb_lt in Eyk.
        now replace (y <? S k) with true by (symmetry; apply Nat.ltb_lt; lia).
      * apply Nat.ltb_ge in Eyk.
        replace (y <? S k) with false by (symmetry; apply Nat.ltb_ge; lia).
        replace (y - k)%nat with (S (y - S k)) by lia. reflexivity.
Qed.

Lemma remove_nth_map {X Y : Type} (f : X -> Y) (n : nat) (l : list X) :
  remove_nth n (map f l) = map f (remove_nth n l).
Proof.
  unfold remove_nth. now rewrite map_app, firstn_map, skipn_map.
Qed.

(** What [sub] computes on a rectangular matrix: the specification's
    submatrix with the two arguments exchanged. *)
Lemma sub_is_submatrix_swapped {T : Type} (h w : nat) (m : Matrix.t T) (y x : nat) :
  Matrix.shaped h w m ->
  Matrix.sub m y x = Ok (submatrix_spec m x y).
Proof.
  intros [Hh Hw]. unfold Matrix.sub, submatrix_spec.
  assert (Hrows : mapM (fun i =>
                          mapM (fun j => Matrix.at2 m i j)
                               (filter (fun j => negb (j =? y))
                                       (seq 0 (Matrix.width m))))
                       (filter (fun i => negb (i =? x)) (seq 0 (Matrix.height m)))
                  = Ok (remove_nth x (map (remove_nth y) (Matrix.data m)))).
  { unfold Matrix.height.
    rewrite <- (length_map (remove_nth y) (Matrix.data m)).
    rewrite (mapM_skip_index _ x (map (remove_nth y) (Matrix.data m)) 0).
    - now rewrite Nat.sub_0_r.
    - intros i r Hi. cbn [Nat.add].
      rewrite nth_error_map in Hi.
      destruct (nth_error (Matrix.data m) i) as [row|] eqn:Erow; [|discriminate].
      injection Hi as <-.
      assert (Hlen : length row = Matrix.width m).
      { unfold Matrix.width.
        destruct (Matrix.data m) as [|row0 rows]; [now destruct i|].
        inversion Hw; subst.
        rewrite Forall_forall in Hw. rewrite (Hw row); [reflexivity|].
        eapply nth_error_In; eauto. }
      rewrite <- Hlen.
      rewrite (mapM_skip_index _ y row 0).
      + now rewrite Nat.sub_0_r.
      + intros j e Hj. cbn [Nat.add]. unfold Matrix.at2, getitem.
        rewrite Erow. cbn [bind]. now rewrite Hj. }
  rewrite Hrows. cbn [bind]. now rewrite remove_nth_map.
Qed.

(** On 2x2 integers [det] is a*d - b*b: the entry [c] is never read. *)
Lemma det_2x2 (a b c d : Z) :
  Matrix.det (Matrix [[a; b]; [c; d]]) = Ok (PNum (a * d - b * b)%Z).
Proof.
  cbn. do 2 f_equal. ring.
Qed.

(** C6.  [sub] takes the column to drop first and the row second: on
    [[1, 2], [3, 4]] the call [sub(0, 1)] keeps [2], the element of row 0
    and column 1, whereas removing row 0 and column 1 keeps [3]. *)
Theorem sub_drops_column_then_row :
  let m := Matrix [[1; 2]; [3; 4]]%Z in
  Matrix.sub m 0 1 = Ok (Matrix [[2%Z]]) /\
  submatrix_spec m 0 1 = Matrix [[3%Z]] /\
  Matrix.sub m 0 1 <> Ok (submatrix_spec m 0 1).
Proof.
  repeat split; try reflexivity. vm_compute. discriminate.
Qed.

(** C1.  [det] is not the determinant: [[1, 1], [0, 0]] has an all-zero
    row and Laplace determinant 0, and [det] returns -1. *)
Theorem det_of_zero_row_matrix :
  let m := Matrix [[1; 1]; [0; 0]]%Z in
  has_zero_row m /\
  laplace_det m = 0%Z /\
  Matrix.det m = Ok (PNum (-1)%Z).
Proof.
  repeat split; try reflexivity.
  exists [0; 0]%Z. split; [simpl; auto | repeat constructor].
Qed.

(** The parts of C1 that hold: the 1x1 base case and the identity
    matrices of size 1 to 4. *)
Lemma det_1x1 {T : Type} `{Number T} (x : T) :
  Matrix.det (Matrix [[x]]) = Ok (PNum x).
Proof. reflexivity. Qed.

Lemma det_identity (n : nat) :
  (1 <= n <= 4)%nat -> Matrix.det (identity n) = Ok (PNum 1%Z).
Proof.
  intros Hn.
  assert (Hc : (n = 1 \/ n = 2 \/ n = 3 \/ n = 4)%nat) by lia.
  destruct Hc as [-> | [-> | [-> | ->]]]; vm_compute; reflexivity.
Qed.

(** On a symmetric matrix the swap is invisible. *)
Example det_symmetric_2x2 :
  Matrix.det (Matrix [[2; 1]; [1; 3]]%Z) = Ok (PNum 5%Z).
Proof. reflexivity. Qed.

Example det_general_2x2 :
  Matrix.det (Matrix [[1; 2]; [3; 4]]%Z) = Ok (PNum 0%Z) /\
  laplace_det (Matrix [[1; 2]; [3; 4]]%Z) = (-2)%Z.
Proof. split; reflexivity. Qed.

(** ** hash_password *)

(** C10.  Whatever the password and the salt, the hash is a non-negative
    integer below 387942806485727, hence below 2^63. *)
Theorem hash_password_range (password : pystr) (salt : Z) :
  (0 <= hash_password password salt < 387942806485727)%Z /\
  (hash_password password salt < 2 ^ 63)%Z.
Proof.
  unfold hash_password.
  pose proof (Z.mod_pos_bound
                (fold_left (hash_round salt) password 867243217%Z)
                387942806485727 eq_refl) as Hb.
  split; [exact Hb|]. 
  apply Z.lt_trans with 387942806485727%Z; [apply Hb | reflexivity].
Qed.

Example hash_password_empty : hash_password [] 12345 = 867243217%Z.
Proof. reflexivity. Qed.

Example hash_password_samples :
  hash_password (of_string "a") 31 = 672981761974%Z /\
  hash_password (of_string "password") (-7) = 141935218992196%Z /\
  hash_password (of_string "Pa55w0rd!") 4000000000 = 16755780873403%Z.
Proof. repeat split; vm_compute; reflexivity. Qed.

(** ** Control surfaces *)

Module ControlFacts.
Import FlightSimulator.
Local Open Scope R_scope.

Ltac real_cases :=
  repeat match goal with
         | |- context [Rlt_dec ?a ?b] => destruct (Rlt_dec a b)
         | |- context [Rgt_dec ?a ?b] => destruct (Rgt_dec a b)
         | |- context [Rle_dec ?a ?b] => destruct (Rle_dec a b)
         | |- context [Rcase_abs ?a] => destruct (Rcase_abs a)
         | H : context [Rcase_abs ?a] |- _ => destruct (Rcase_abs a)
         end;
  simpl; try reflexivity; try lra.

(** With no key down the value moves 5*dt towards zero, and is set to zero
    when what is left is below 10*dt: the window is 15*dt wide. *)
Lemma snap_window (held_keys : string -> bool) (dt control : R)
    (increase_key decrease_key : string) (maximum : R) :
  held_keys increase_key = false ->
  held_keys decrease_key = false ->
  Rabs control < 15 * dt ->
  update_control_surface held_keys dt control increase_key decrease_key maximum = 0.
Proof.
  intros Hi Hd Hc. unfold update_control_surface. rewrite Hi, Hd. simpl.
  unfold Rabs in *. real_cases.
Qed.

(** C7.  No key of the axis down, a nonzero value that 5*dt carries to or
    across zero: the update returns exactly 0. *)
Theorem spring_back_snaps_to_zero (held_keys : string -> bool) (dt control : R)
    (increase_key decrease_key : string) (maximum : R) :
  held_keys increase_key = false ->
  held_keys decrease_key = false ->
  control <> 0 ->
  Rabs control <= 5 * dt ->
  update_control_surface held_keys dt control increase_key decrease_key maximum = 0.
Proof.
  intros Hi Hd Hnz Hc. apply snap_window; trivial.
  assert (0 < Rabs control) by now apply Rabs_pos_lt.
  lra.
Qed.

Lemma spring_back_snaps_to_zero_witness :
  update_control_surface no_keys 0.01667 0.05 "w" "s" 5 = 0.
Proof.
  apply spring_back_snaps_to_zero.
  - reflexivity.
  - reflexivity.
  - lra.
  - unfold Rabs. destruct (Rcase_abs 0.05); lra.
Defined.

(** The same on the three axes of [update_control_inputs]. *)
Lemma spring_back_all_axes (s : sim) :
  Rabs (elevator s) < 15 * dt s ->
  Rabs (aileron s) < 15 * dt s ->
  Rabs (rudder s) < 15 * dt s ->
  let s' := update_control_inputs no_keys s in
  elevator s' = 0 /\ aileron s' = 0 /\ rudder s' = 0.
Proof.
  intros He Ha Hr. simpl. repeat split; now apply snap_window.
Qed.

(** Holding the increase key: each frame adds 3*dt as long as the value
    before the frame was below the maximum. *)
Lemma hold_increase (dt : R) (n : nat) :
  0 < dt ->
  (n = 0%nat \/ INR (n - 1) * (3 * dt) < 5) ->
  elevator_after (only_key "w") dt n 0 = INR n * (3 * dt).
Proof.
  intros Hdt. induction n as [|n IH]; intros Hn.
  - simpl. lra.
  - destruct Hn as [Hn|Hn]; [discriminate|].
    replace (S n - 1)%nat with n in Hn by lia.
    assert (Hprev : elevator_after (only_key "w") dt n 0 = INR n * (3 * dt)).
    { apply IH. destruct n as [|n']; [now left | right].
      replace (S n' - 1)%nat with n' by lia.
      rewrite S_INR in Hn. nra. }
    cbn [elevator_after]. rewrite Hprev, S_INR.
    unfold update_control_surface.
    change (only_key "w" "w") with true. change (only_key "w" "s") with false.
    cbn [orb negb andb].
    destruct (Rlt_dec (INR n * (3 * dt)) 5); [|contradiction].
    destruct (Rlt_dec (Rabs (INR n * (3 * dt) + 3 * dt)) (10 * dt)); simpl; lra.
Qed.

(** C8.  Nothing clamps: the guard [control < maximum] is tested before
    3*dt is added.  From the initial elevator 0, with dt = 0.01667 as
    [__init__] sets it, 99 frames of "w" give 4.95099, inside [-5, 5], and
    the 100th gives 5.001. *)
Theorem elevator_exceeds_maximum :
  let before := elevator_after (only_key "w") 0.01667 99 0 in
  let after := update_control_surface (only_key "w") 0.01667 before "w" "s" 5 in
  before = 4.95099 /\ -5 <= before <= 5 /\ after = 5.001 /\ 5 < after.
Proof.
  assert (Hb : elevator_after (only_key "w") 0.01667 99 0 = 4.95099).
  { rewrite hold_increase; [| lra |].
    - change 99%nat with (Z.to_nat 99). rewrite INR_IZR_INZ, Z2Nat.id by lia. lra.
    - right. change (99 - 1)%nat with (Z.to_nat 98).
      rewrite INR_IZR_INZ, Z2Nat.id by lia. lra. }
  assert (Ha : elevator_after (only_key "w") 0.01667 100 0 = 5.001).
  { rewrite hold_increase; [| lra |].
    - change 100%nat with (Z.to_nat 100). rewrite INR_IZR_INZ, Z2Nat.id by lia. lra.
    - right. change (100 - 1)%nat with (Z.to_nat 99).
      rewrite INR_IZR_INZ, Z2Nat.id by lia. lra. }
  cbv zeta. change (update_control_surface (only_key "w") 0.01667
                      (elevator_after (only_key "w") 0.01667 99 0) "w" "s" 5)
    with (elevator_after (only_key "w") 0.01667 100 0).
  rewrite Hb, Ha. lra.
Qed.

(** What the guards do ensure: an overshoot of at most one increment. *)
Lemma control_overshoot_bound (held_keys : string -> bool) (dt control : R)
    (increase_key decrease_key : string) :
  0 <= dt <= 5 / 2 ->
  - (5 + 3 * dt) <= control <= 5 + 3 * dt ->
  - (5 + 3 * dt)
  <= update_control_surface held_keys dt control increase_key decrease_key 5
  <= 5 + 3 * dt.
Proof.
  intros Hdt Hc. unfold update_control_surface.
  destruct (held_keys increase_key), (held_keys decrease_key); simpl;
    unfold Rabs; real_cases.
Qed.

End ControlFacts.

(** ** The per-tick update *)

Module SimulatorFacts.
Import FlightSimulator.
Local Open Scope R_scope.

Ltac fields :=
  cbn [A B C D state_long state_lat dt flight_time run menu_active crashed
       ground_y elevator aileron rudder plane log global_flight_time
       global_crashed post_flight
       set_state_long set_state_lat set_flight_time set_run set_menu_active
       set_crashed set_controls set_plane set_log set_post_flight] in *.

(** A value that the setters leave alone keeps the shapes. *)
Lemma well_shaped_ext (s s' : sim) :
  A s' = A s -> B s' = B s -> C s' = C s -> D s' = D s ->
  state_long s' = state_long s -> state_lat s' = state_lat s ->
  well_shaped s -> well_shaped s'.
Proof.
  intros EA EB EC ED El Et [HA HB HC HD Hl Ht].
  constructor; congruence.
Qed.

Lemma control_at_rest (held_keys : string -> bool) (dt : R)
    (increase_key decrease_key : string) (maximum : R) :
  held_keys increase_key = false ->
  held_keys decrease_key = false ->
  update_control_surface held_keys dt 0 increase_key decrease_key maximum = 0.
Proof.
  intros Hi Hd. unfold update_control_surface. rewrite Hi, Hd. simpl.
  ControlFacts.real_cases.
Qed.

(** The Euler step on well-shaped data returns, and stores two 4x1
    matrices. *)
Lemma update_state_vectors_shaped (s : sim) :
  well_shaped s ->
  exists l t,
    Matrix.shaped 4 1 l /\ Matrix.shaped 4 1 t /\
    update_state_vectors s = Ok (set_state_lat (set_state_long s (PMat l)) (PMat t)).
Proof.
  intros [HA HB HC HD (ml & El & Hl) (mt & Et & Ht)].
  unfold update_state_vectors. rewrite El. cbn [mat_mul].
  destruct (@mul_matrix_shaped R _ 4 4 1 (A s) ml) as (ax & -> & Hax); try lia; trivial.
  cbn [bind].
  destruct (@mul_scalar_shaped R _ 4 1 (B s) (elevator s) HB) as (bu & -> & Hbu).
  cbn [bind py_add].
  destruct (add_shaped Hax Hbu) as (sm & -> & Hsm). cbn [bind times].
  destruct (@mul_scalar_shaped R _ 4 1 sm (dt s) Hsm) as (dl & -> & Hdl).
  cbn [bind py_add].
  destruct (add_shaped Hl Hdl) as (nl & -> & Hnl). cbn [bind]. fields.
  rewrite Et. cbn [mat_mul].
  destruct (@mul_matrix_shaped R _ 4 4 1 (C s) mt) as (cx & -> & Hcx); try lia; trivial.
  cbn [bind].
  destruct (@mul_matrix_shaped R _ 4 2 1 (D s) (Matrix [[aileron s]; [rudder s]]))
    as (du & -> & Hdu); try lia; trivial.
  { split; [reflexivity | repeat constructor]. }
  cbn [bind py_add].
  destruct (add_shaped Hcx Hdu) as (sm' & -> & Hsm'). cbn [bind times].
  destruct (@mul_scalar_shaped R _ 4 1 sm' (dt s) Hsm') as (dl' & -> & Hdl').
  cbn [bind py_add].
  destruct (add_shaped Ht Hdl') as (nt & -> & Hnt). cbn [bind].
  exists nl, nt. repeat split; trivial; apply Hnl || apply Hnt.
Qed.

Lemma shaped_4_1_inv (m : matrix) :
  Matrix.shaped 4 1 m ->
  exists a b c d, m = Matrix [[a]; [b]; [c]; [d]].
Proof.
  destruct m as [rows]. intros [Hh Hw]. simpl in *.
  do 5 (destruct rows as [|? rows]; simpl in Hh; try discriminate).
  repeat match goal with
         | H : Forall _ (_ :: _) |- _ => inversion H; clear H; subst
         end.
  repeat match goal with
         | H : length ?r = 1%nat |- _ =>
             destruct r as [|? [|? ?]]; simpl in H; try discriminate; clear H
         end.
  eauto 6.
Qed.

Lemma shaped_4_2_inv (m : matrix) :
  Matrix.shaped 4 2 m ->
  exists a0 a1 b0 b1 c0 c1 d0 d1,
    m = Matrix [[a0; a1]; [b0; b1]; [c0; c1]; [d0; d1]].
Proof.
  destruct m as [rows]. intros [Hh Hw]. simpl in *.
  do 5 (destruct rows as [|? rows]; simpl in Hh; try discriminate).
  repeat match goal with
         | H : Forall _ (_ :: _) |- _ => inversion H; clear H; subst
         end.
  repeat match goal with
         | H : length ?r = 2%nat |- _ =>
             destruct r as [|? [|? [|? ?]]]; simpl in H; try discriminate; clear H
         end.
  eauto 10.
Qed.

Lemma shaped_4_4_inv (m : matrix) :
  Matrix.shaped 4 4 m ->
  exists a0 a1 a2 a3 b0 b1 b2 b3 c0 c1 c2 c3 d0 d1 d2 d3,
    m = Matrix [[a0; a1; a2; a3]; [b0; b1; b2; b3];
                [c0; c1; c2; c3]; [d0; d1; d2; d3]].
Proof.
  destruct m as [rows]. intros [Hh Hw]. simpl in *.
  do 5 (destruct rows as [|? rows]; simpl in Hh; try discriminate).
  repeat match goal with
         | H : Forall _ (_ :: _) |- _ => inversion H; clear H; subst
         end.
  repeat match goal with
         | H : length ?r = 4%nat |- _ =>
             destruct r as [|? [|? [|? [|? [|? ?]]]]]; simpl in H;
             try discriminate; clear H
         end.
  do 16 eexists. reflexivity.
Qed.

(** Zero state, zero controls: the Euler step stores the zero vectors
    again, whatever dt is. *)
Lemma update_state_vectors_zero (s : sim) :
  well_shaped s ->
  state_long s = PMat zero_state ->
  state_lat s = PMat zero_state ->
  elevator s = 0 -> aileron s = 0 -> rudder s = 0 ->
  update_state_vectors s = Ok s.
Proof.
  intros [HA HB HC HD _ _] El Et He Ha Hr.
  destruct (shaped_4_4_inv HA) as (a0 & a1 & a2 & a3 & a4 & a5 & a6 & a7 & a8 & a9
                                    & a10 & a11 & a12 & a13 & a14 & a15 & EA).
  destruct (shaped_4_4_inv HC) as (c0 & c1 & c2 & c3 & c4 & c5 & c6 & c7 & c8 & c9
                                    & c10 & c11 & c12 & c13 & c14 & c15 & EC).
  destruct (shaped_4_1_inv HB) as (b0 & b1 & b2 & b3 & EB).
  destruct (shaped_4_2_inv HD) as (d0 & d1 & d2 & d3 & d4 & d5 & d6 & d7 & ED).
  destruct s. fields. subst.
  unfold update_state_vectors. fields. cbn.
  repeat match goal with
         | |- context [0 + ?x * ?d] => replace (0 + x * d) with 0 by ring
         end.
  reflexivity.
Qed.

Lemma update_control_inputs_zero (held_keys : string -> bool) (s : sim) :
  idle held_keys ->
  elevator s = 0 -> aileron s = 0 -> rudder s = 0 ->
  update_control_inputs held_keys s = s.
Proof.
  intros Hk He Ha Hr. unfold update_control_inputs.
  rewrite He, Ha, Hr.
  rewrite !control_at_rest by (apply Hk; simpl; auto 10).
  destruct s. fields. subst. reflexivity.
Qed.

(** C3.  From the zero state vectors, with the three controls at 0 and no
    control key down, the control update followed by the Euler step
    returns and leaves both state vectors at the 4x1 zero vector (and the
    controls at 0), for every dt. *)
Theorem zero_input_steady_state (held_keys : string -> bool) (s : sim) :
  well_shaped s ->
  idle held_keys ->
  state_long s = PMat zero_state ->
  state_lat s = PMat zero_state ->
  elevator s = 0 -> aileron s = 0 -> rudder s = 0 ->
  exists s',
    update_state_vectors (update_control_inputs held_keys s) = Ok s' /\
    state_long s' = PMat zero_state /\
    state_lat s' = PMat zero_state /\
    elevator s' = 0 /\ aileron s' = 0 /\ rudder s' = 0.
Proof.
  intros Hs Hk El Et He Ha Hr.
  rewrite update_control_inputs_zero by assumption.
  exists s. split; [now apply update_state_vectors_zero | auto 10].
Qed.

Lemma init_well_shaped (a b c d : matrix) :
  Matrix.shaped 4 4 a -> Matrix.shaped 4 1 b ->
  Matrix.shaped 4 4 c -> Matrix.shaped 4 2 d ->
  well_shaped (init a b c d).
Proof.
  intros Ha Hb Hc Hd.
  constructor; trivial; exists zero_state;
    (split; [reflexivity | split; [reflexivity | repeat constructor]]).
Qed.

(** Sixteen parsed rows of lengths 4, 1, 4 and 2 (four of each) slice into
    a well-shaped model. *)
Lemma setup_physics_well_shaped (matrix_combo : list (list R)) :
  map (@length R) matrix_combo
  = [4; 4; 4; 4; 1; 1; 1; 1; 4; 4; 4; 4; 2; 2; 2; 2]%nat ->
  well_shaped (setup_physics matrix_combo).
Proof.
  intros Hlen.
  do 17 (destruct matrix_combo as [|? matrix_combo]; try discriminate Hlen).
  cbn [map] in Hlen.
  injection Hlen as H0 H1 H2 H3 H4 H5 H6 H7 H8 H9 H10 H11 H12 H13 H14 H15.
  apply init_well_shaped;
    (split; [reflexivity | cbn; repeat constructor; assumption]).
Qed.

Lemma sample_well_shaped : well_shaped sample_sim.
Proof.
  apply init_well_shaped; (split; [reflexivity | repeat constructor]).
Qed.

Lemma no_keys_idle : idle no_keys.
Proof. intros k _. reflexivity. Qed.

Lemma zero_input_steady_state_witness :
  exists s',
    update_state_vectors (update_control_inputs no_keys sample_sim) = Ok s' /\
    state_long s' = PMat zero_state /\
    state_lat s' = PMat zero_state /\
    elevator s' = 0 /\ aileron s' = 0 /\ rudder s' = 0.
Proof.
  apply zero_input_steady_state.
  - exact sample_well_shaped.
  - exact no_keys_idle.
  - reflexivity.
  - reflexivity.
  - reflexivity.
  - reflexivity.
  - reflexivity.
Defined.

(** *** Reading the state *)

Lemma entry_shaped (h w : nat) (x : value) (i j : nat) :
  shaped_value h w x -> (i < h)%nat -> (j < w)%nat ->
  exists r, entry x i j = Ok r.
Proof.
  intros (m & -> & Hm) Hi Hj. simpl. now apply (at2_shaped Hm).
Qed.

Lemma frame_of_total (s : sim) :
  well_shaped s -> exists f, frame_of s = Ok f.
Proof.
  intros [HA _ _ _ Hl Ht]. unfold frame_of.
  destruct (@entry_shaped 4 1 (state_lat s) 0 0 Ht) as (b & ->); try lia.
  destruct (@entry_shaped 4 1 (state_long s) 2 0 Hl) as (th & ->); try lia.
  destruct (@entry_shaped 4 1 (state_lat s) 2 0 Ht) as (ps & ->); try lia.
  destruct (@entry_shaped 4 1 (state_lat s) 3 0 Ht) as (ph & ->); try lia.
  destruct (@at2_shaped R 4 4 (A s) 1 2 HA) as (c & ->); try lia.
  destruct (@entry_shaped 4 1 (state_long s) 0 0 Hl) as (u & ->); try lia.
  destruct (@entry_shaped 4 1 (state_long s) 1 0 Hl) as (vv & ->); try lia.
  cbn [bind]. eauto.
Qed.

Lemma from_end_total (l : list R) (k : nat) :
  (k < length l)%nat -> exists x, from_end l k = Ok x.
Proof.
  intros Hk. unfold from_end, getitem.
  destruct (nth_error (rev l) k) as [x|] eqn:E; [eauto|].
  apply nth_error_None in E. rewrite length_rev in E. lia.
Qed.

Lemma from_end_last (l : list R) (x : R) : from_end (l ++ [x]) 0 = Ok x.
Proof. unfold from_end. now rewrite rev_unit. Qed.

Section Engine.

Variables forward up right : Entity -> Vec3.

Lemma update_plane_total (s : sim) :
  well_shaped s ->
  exists p, update_plane forward up right s = Ok (set_plane s p).
Proof.
  intros Hs. unfold update_plane.
  destruct (frame_of_total Hs) as (f & ->). cbn [bind]. eauto.
Qed.

Lemma update_data_total (s : sim) :
  well_shaped s -> dt s <> 0 ->
  exists l u c,
    update_data s = Ok (set_log s l) /\
    entry (state_long s) 0 0 = Ok u /\
    Matrix.at2 (A s) 1 2 = Ok c /\
    velocity_data l = velocity_data (log s) ++ [u + c].
Proof.
  intros [HA _ _ _ Hl Ht] Hdt. unfold update_data.
  destruct (@entry_shaped 4 1 (state_long s) 1 0 Hl) as (aoa & ->); try lia.
  destruct (@at2_shaped R 4 4 (A s) 1 2 HA) as (c & Ec); try lia.
  destruct (@entry_shaped 4 1 (state_long s) 0 0 Hl) as (u & Eu); try lia.
  rewrite Ec, Eu. cbn [bind].
  destruct (Nat.ltb 1 (length (velocity_data (log s) ++ [u + c]))) eqn:Elen.
  - apply Nat.ltb_lt in Elen.
    destruct (@from_end_total (velocity_data (log s) ++ [u + c]) 0) as (v1 & ->);
      [lia|].
    destruct (@from_end_total (velocity_data (log s) ++ [u + c]) 1) as (v2 & ->);
      [lia|].
    cbn [bind]. destruct (Req_dec_T (dt s) 0) as [E0|_]; [contradiction|].
    cbn [bind]. eexists _, u, c. repeat split.
  - cbn [bind]. eexists _, u, c. repeat split.
Qed.

Lemma steady_ext (s s' : sim) :
  A s' = A s -> B s' = B s -> C s' = C s -> D s' = D s ->
  state_long s' = state_long s -> state_lat s' = state_lat s ->
  dt s' = dt s ->
  steady s -> steady s'.
Proof.
  intros EA EB EC ED El Et Edt [Hs Hdt].
  split; [now apply (@well_shaped_ext s s') | congruence].
Qed.

Ltac same_core := eapply steady_ext; [.. | eassumption]; reflexivity.

Lemma steady_state_vectors (s : sim) (l t : matrix) :
  Matrix.shaped 4 1 l -> Matrix.shaped 4 1 t -> steady s ->
  steady (set_state_lat (set_state_long s (PMat l)) (PMat t)).
Proof.
  intros Hl Ht [[HA HB HC HD _ _] Hdt].
  split; [|exact Hdt].
  constructor; trivial; [exists l | exists t]; (split; [reflexivity | assumption]).
Qed.

Lemma steady_check_ground_collision (s : sim) :
  steady s -> steady (check_ground_collision s).
Proof.
  intros Hs. unfold check_ground_collision.
  destruct (Rle_dec _ _); [same_core | exact Hs].
Qed.

Lemma update_steady (held_keys : string -> bool) (s : sim) :
  steady s ->
  exists s', update forward up right held_keys s = Ok s' /\ steady s'.
Proof.
  intros Hs. unfold update.
  destruct (negb (run s) && (negb (menu_active s) && negb (crashed s)));
    [eauto|].
  destruct (run s); [|eauto].
  set (s1 := update_control_inputs held_keys
               (set_flight_time s (flight_time s + dt s))).
  assert (H1 : steady s1) by same_core.
  destruct (update_state_vectors_shaped (proj1 H1)) as (l & t & Hl & Ht & ->).
  cbn [bind].
  pose proof (steady_state_vectors Hl Ht H1) as H2.
  destruct (update_plane_total (proj1 H2)) as (p & ->). cbn [bind].
  match goal with
  | |- context [check_ground_collision ?x] =>
      assert (H3 : steady (check_ground_collision x))
        by (apply steady_check_ground_collision; same_core)
  end.
  destruct (update_data_total (proj1 H3) (proj2 H3)) as (d & u & c & -> & _).
  cbn [bind].
  destruct (Rgt_dec _ _); eexists; (split; [reflexivity | same_core]).
Qed.

Lemma updates_steady (samples : list (string -> bool)) (s : sim) :
  steady s ->
  exists s', updates forward up right samples s = Ok s' /\ steady s'.
Proof.
  revert s. induction samples as [|k rest IH]; intros s Hs.
  - exists s. split; [reflexivity | exact Hs].
  - destruct (update_steady k Hs) as (s1 & E1 & H1).
    destruct (IH s1 H1) as (s2 & E2 & H2).
    exists s2. simpl. rewrite E1. simpl. auto.
Qed.


(** *** Halting *)

Lemma update_when_stopped (held_keys : string -> bool) (s : sim) :
  run s = false -> update forward up right held_keys s = Ok s.
Proof.
  intros Hr. unfold update. rewrite Hr. simpl.
  now destruct (negb (menu_active s) && negb (crashed s)).
Qed.


(** [toggle_menu] does not look at [crashed]: two presses of Escape set
    [run] again. *)
Lemma escape_twice_resumes (s : sim) :
  menu_active s = false ->
  run (toggle_menu (toggle_menu s)) = true /\
  crashed (toggle_menu (toggle_menu s)) = crashed s.
Proof.
  intros Hm. unfold toggle_menu. fields. rewrite Hm. auto.
Qed.

(** A frame that ends at or below the ground ends halted. *)
Lemma collision_halts (s : sim) :
  vy (position (plane s)) - 1 <= ground_y s ->
  Halted (check_ground_collision s).
Proof.
  intros Hy. unfold check_ground_collision, Halted.
  destruct (Rle_dec _ _); [simpl; auto | contradiction].
Qed.

(** *** Cruise *)

Lemma frame_of_ext (s s' : sim) :
  A s' = A s -> state_long s' = state_long s -> state_lat s' = state_lat s ->
  frame_of s' = frame_of s.
Proof.
  intros EA El Et. unfold frame_of. now rewrite EA, El, Et.
Qed.

Lemma frame_of_zero (s : sim) (c : R) :
  state_long s = PMat zero_state ->
  state_lat s = PMat zero_state ->
  Matrix.at2 (A s) 1 2 = Ok c ->
  exists f, frame_of s = Ok f /\
            sidelip_angle f = 0 /\ cruise_speed f = c /\
            v f = c /\ fv f = c /\ vv f = 0 /\ hv f = 0.
Proof.
  intros El Et Ec. unfold frame_of. rewrite El, Et, Ec. cbn.
  eexists. split; [reflexivity|]. cbn.
  replace (0 / 57.2958) with 0 by lra.
  rewrite cos_0, sin_0. repeat split; lra.
Qed.

(** C9.  Cruise speed A[1][2] = 50, both state vectors at zero, controls
    at zero, no control key down: the frame returns; the state vectors are
    still zero; the frame transform on them has sideslip 0, true airspeed
    v = 50 and forward velocity v * cos(sideslip) = 50; and 50 is the
    velocity appended to the log. *)
Theorem cruise_speed_is_reported (held_keys : string -> bool) (s : sim) :
  well_shaped s -> dt s <> 0 -> run s = true ->
  idle held_keys ->
  state_long s = PMat zero_state ->
  state_lat s = PMat zero_state ->
  elevator s = 0 -> aileron s = 0 -> rudder s = 0 ->
  Matrix.at2 (A s) 1 2 = Ok 50 ->
  exists s' f,
    update forward up right held_keys s = Ok s' /\
    state_long s' = PMat zero_state /\ state_lat s' = PMat zero_state /\
    frame_of s' = Ok f /\
    sidelip_angle f = 0 /\ v f = 50 /\ fv f = 50 /\
    from_end (velocity_data (log s')) 0 = Ok 50.
Proof.
  intros Hs Hdt Hrun Hk El Et He Ha Hr Hc.
  destruct (frame_of_zero s El Et Hc) as (f & Ef & Hb & _ & Hv & Hfv & _).
  unfold update. rewrite Hrun. cbn [negb andb].
  set (s0 := set_flight_time s (flight_time s + dt s)).
  assert (H0 : steady s0) by (apply (@steady_ext s s0); try reflexivity; now split).
  rewrite (@update_control_inputs_zero held_keys s0) by assumption.
  rewrite (@update_state_vectors_zero s0) by (try apply H0; assumption).
  cbn [bind].
  destruct (update_plane_total (proj1 H0)) as (p & ->). cbn [bind].
  match goal with
  | |- context [check_ground_collision ?x] =>
      assert (H3 : steady (check_ground_collision x))
        by (apply steady_check_ground_collision; same_core);
      assert (E3 : A (check_ground_collision x) = A s
                   /\ state_long (check_ground_collision x) = state_long s
                   /\ state_lat (check_ground_collision x) = state_lat s)
        by (unfold check_ground_collision; destruct (Rle_dec _ _); auto);
      set (s3 := check_ground_collision x) in *
  end.
  destruct E3 as (EA3 & El3 & Et3).
  destruct (update_data_total (proj1 H3) (proj2 H3))
    as (d & u & c & -> & Eu & Ec & Ev).
  rewrite El3, El in Eu. rewrite EA3, Hc in Ec.
  injection Eu as <-. injection Ec as <-.
  assert (Elast : from_end (velocity_data d) 0 = Ok 50).
  { rewrite Ev, from_end_last. f_equal. lra. }
  cbn [bind].
  destruct (Rgt_dec _ _); eexists _, f;
    (split; [reflexivity|]);
    (split; [cbn; congruence|]);
    (split; [cbn; congruence|]);
    (split; [rewrite <- Ef; apply frame_of_ext; cbn; congruence|]);
    auto.
Qed.

End Engine.



Lemma cruise_speed_is_reported_witness :
  exists s' f,
    update sample_forward sample_up sample_right no_keys sample_sim = Ok s' /\
    state_long s' = PMat zero_state /\ state_lat s' = PMat zero_state /\
    frame_of s' = Ok f /\
    sidelip_angle f = 0 /\ v f = 50 /\ fv f = 50 /\
    from_end (velocity_data (log s')) 0 = Ok 50.
Proof.
  apply cruise_speed_is_reported.
  - exact sample_well_shaped.
  - simpl. lra.
  - reflexivity.
  - exact no_keys_idle.
  - reflexivity.
  - reflexivity.
  - reflexivity.
  - reflexivity.
  - reflexivity.
  - reflexivity.
Defined.

End SimulatorFacts.

(** * Further properties of the code *)

(** ** Matrix arithmetic *)

Module MatrixLaws.
Section Generic.

Context {T : Type} `{Number T}.

Local Abbreviation shaped := Matrix.shaped.

(** What a loop over [range(n)] that appends one value per index returns. *)
Lemma mapM_seq_inv {X : Type} (g : nat -> res X) (n : nat) :
  forall k L,
    mapM g (seq k n) = Ok L ->
    length L = n /\
    forall j x, nth_error L j = Some x -> g (k + j)%nat = Ok x.
Proof.
  induction n as [|n IH]; intros k L E; simpl in E.
  - injection E as <-. split; [reflexivity|]. intros [|j] x Hj; discriminate.
  - destruct (g k) as [b|e] eqn:Eb; [|discriminate]. simpl in E.
    destruct (mapM g (seq (S k) n)) as [bs|e] eqn:Ebs; [|discriminate].
    simpl in E. injection E as <-.
    destruct (IH (S k) bs Ebs) as [Hl Hn].
    split; [simpl; congruence|].
    intros [|j] x Hj; simpl in Hj.
    + injection Hj as <-. now rewrite Nat.add_0_r.
    + replace (k + S j)%nat with (S k + j)%nat by lia. now apply Hn.
Qed.

Lemma at2_nth (m : Matrix.t T) (i j : nat) (x : T) :
  Matrix.at2 m i j = Ok x <->
  exists row, nth_error (Matrix.data m) i = Some row /\ nth_error row j = Some x.
Proof.
  unfold Matrix.at2, getitem. split.
  - destruct (nth_error (Matrix.data m) i) as [row|]; [|discriminate].
    cbn [bind]. destruct (nth_error row j) as [y|] eqn:Ej; [|discriminate].
    intros E. injection E as <-. eauto.
  - intros (row & -> & Ej). cbn [bind]. now rewrite Ej.
Qed.

Lemma at2_bounds (h w : nat) (m : Matrix.t T) (i j : nat) (x : T) :
  shaped h w m -> Matrix.at2 m i j = Ok x -> (i < h /\ j < w)%nat.
Proof.
  intros [Hh Hw] E. apply at2_nth in E. destruct E as (row & Ei & Ej).
  assert (Hl : length row = w).
  { rewrite Forall_forall in Hw. apply Hw. eapply nth_error_In; eauto. }
  split.
  - rewrite <- Hh. apply nth_error_Some. congruence.
  - rewrite <- Hl. apply nth_error_Some. congruence.
Qed.

(** The two nested loops that fill a result matrix: the result is
    rectangular and its entry [i][j] is the value computed for [i], [j]. *)
Lemma build_matrix (h w : nat) (g : nat -> nat -> res T) :
  (forall i j, (i < h)%nat -> (j < w)%nat -> exists x, g i j = Ok x) ->
  exists r,
    mapM (fun i => mapM (g i) (seq 0 w)) (seq 0 h) = Ok r /\
    shaped h w (Matrix r) /\
    forall i j, (i < h)%nat -> (j < w)%nat -> Matrix.at2 (Matrix r) i j = g i j.
Proof.
  intros Hg.
  destruct (@rows_shaped T h w (fun i => mapM (g i) (seq 0 w))) as (r & Er & Sr).
  { intros i Hi. apply (@row_total T w). intros j Hj. now apply Hg. }
  exists r. repeat split; try assumption; try apply Sr.
  intros i j Hi Hj.
  destruct (at2_shaped Sr Hi Hj) as (x & Ex). rewrite Ex.
  apply at2_nth in Ex. destruct Ex as (row & Ei & Ej). simpl in Ei.
  destruct (mapM_seq_inv _ _ _ Er) as [_ Hrows].
  specialize (Hrows i row Ei). simpl in Hrows.
  destruct (mapM_seq_inv _ _ _ Hrows) as [_ Hcols].
  specialize (Hcols j x Ej). simpl in Hcols. now rewrite Hcols.
Qed.

(** Two rectangular matrices of one shape with the same entries are the
    same matrix. *)
Lemma matrix_ext (h w : nat) (a b : Matrix.t T) :
  shaped h w a -> shaped h w b ->
  (forall i j, (i < h)%nat -> (j < w)%nat -> Matrix.at2 a i j = Matrix.at2 b i j) ->
  a = b.
Proof.
  intros Ha Hb Hab. destruct a as [da], b as [db]. f_equal.
  apply nth_error_ext. intros i.
  destruct Ha as [Hha Hwa], Hb as [Hhb Hwb]. simpl in *.
  destruct (nth_error da i) as [ra|] eqn:Ea.
  - assert (Hi : (i < h)%nat) by (rewrite <- Hha; apply nth_error_Some; congruence).
    destruct (nth_error db i) as [rb|] eqn:Eb.
    + f_equal. apply nth_error_ext. intros j.
      assert (Hla : length ra = w).
      { rewrite Forall_forall in Hwa. apply Hwa. eapply nth_error_In; eauto. }
      assert (Hlb : length rb = w).
      { rewrite Forall_forall in Hwb. apply Hwb. eapply nth_error_In; eauto. }
      destruct (Nat.lt_ge_cases j w) as [Hj|Hj].
      * specialize (Hab i j Hi Hj). unfold Matrix.at2, getitem in Hab.
        simpl in Hab. rewrite Ea, Eb in Hab. cbn [bind] in Hab.
        destruct (nth_error ra j) as [x|] eqn:Ex;
          destruct (nth_error rb j) as [y|] eqn:Ey; congruence.
      * transitivity (@None T); [|symmetry]; apply nth_error_None; lia.
    + apply nth_error_None in Eb. lia.
  - apply nth_error_None in Ea. symmetry. apply nth_error_None. lia.
Qed.

Lemma width_shaped_any (h w : nat) (a b : Matrix.t T) :
  shaped h w a -> shaped h w b -> Matrix.width a = Matrix.width b.
Proof.
  intros Ha Hb. destruct (Nat.eq_dec h 0) as [->|Hpos].
  - destruct Ha as [Ha _], Hb as [Hb _]. unfold Matrix.width.
    apply length_zero_iff_nil in Ha, Hb. now rewrite Ha, Hb.
  - rewrite (shaped_width Ha), (shaped_width Hb) by lia. reflexivity.
Qed.

Lemma add_spec (h w : nat) (a b : Matrix.t T) :
  shaped h w a -> shaped h w b ->
  exists c,
    Matrix.add a b = Ok (PMat c) /\ shaped h w c /\
    forall i j x y,
      Matrix.at2 a i j = Ok x -> Matrix.at2 b i j = Ok y ->
      Matrix.at2 c i j = Ok (num_add x y).
Proof.
  intros Ha Hb. unfold Matrix.add.
  rewrite (shaped_height Ha), (shaped_height Hb), Nat.eqb_refl.
  rewrite (width_shaped_any Ha Hb), Nat.eqb_refl. cbn [negb orb].
  destruct (Nat.eq_dec h 0) as [->|Hpos].
  - exists (Matrix []). simpl. repeat split; try constructor.
    intros i j x y Ex _. pose proof (@at2_bounds _ _ _ _ _ _ Ha Ex). lia.
  - rewrite (shaped_width Hb) by lia.
    destruct (@build_matrix h w
                (fun i j => x <- Matrix.at2 a i j ;;
                            y <- Matrix.at2 b i j ;; Ok (num_add x y)))
      as (r & Er & Sr & Hr).
    { intros i j Hi Hj.
      destruct (at2_shaped Ha Hi Hj) as (x & ->).
      destruct (at2_shaped Hb Hi Hj) as (y & ->). simpl. eauto. }
    rewrite Er. cbn [bind]. exists (Matrix r). repeat split; try apply Sr.
    intros i j x y Ex Ey. destruct (@at2_bounds _ _ _ _ _ _ Ha Ex) as [Hi Hj].
    rewrite (Hr i j Hi Hj), Ex, Ey. reflexivity.
Qed.

(** X1.  [a + b] on two rectangular matrices of one shape returns a matrix of
    that shape whose entry [i][j] is [a[i][j] + b[i][j]]. *)
Theorem add_entries (h w : nat) (a b : Matrix.t T) :
  shaped h w a -> shaped h w b ->
  exists c,
    Matrix.add a b = Ok (PMat c) /\ shaped h w c /\
    forall i j x y,
      Matrix.at2 a i j = Ok x -> Matrix.at2 b i j = Ok y ->
      Matrix.at2 c i j = Ok (num_add x y).
Proof. exact (@add_spec h w a b). Qed.

(** X2.  Addition is commutative when the elements' [+] is. *)
Theorem add_comm (h w : nat) (a b : Matrix.t T) :
  (forall x y : T, num_add x y = num_add y x) ->
  shaped h w a -> shaped h w b ->
  Matrix.add a b = Matrix.add b a.
Proof.
  intros Hcomm Ha Hb.
  destruct (add_spec Ha Hb) as (c & -> & Sc & Hc).
  destruct (add_spec Hb Ha) as (c' & -> & Sc' & Hc').
  do 2 f_equal. apply (@matrix_ext h w); trivial.
  intros i j Hi Hj.
  destruct (at2_shaped Ha Hi Hj) as (x & Ex).
  destruct (at2_shaped Hb Hi Hj) as (y & Ey).
  rewrite (Hc i j x y Ex Ey), (Hc' i j y x Ey Ex). now rewrite Hcomm.
Qed.

(** X3.  Addition is associative when the elements' [+] is: both groupings
    return, and return the same matrix. *)
Theorem add_assoc (h w : nat) (a b c : Matrix.t T) :
  (forall x y z : T, num_add (num_add x y) z = num_add x (num_add y z)) ->
  shaped h w a -> shaped h w b -> shaped h w c ->
  exists ab bc abc,
    Matrix.add a b = Ok (PMat ab) /\ Matrix.add b c = Ok (PMat bc) /\
    Matrix.add ab c = Ok (PMat abc) /\ Matrix.add a bc = Ok (PMat abc).
Proof.
  intros Hassoc Ha Hb Hc.
  destruct (add_spec Ha Hb) as (ab & Eab & Sab & Hab).
  destruct (add_spec Hb Hc) as (bc & Ebc & Sbc & Hbc).
  destruct (add_spec Sab Hc) as (l & El & Sl & Hl).
  destruct (add_spec Ha Sbc) as (r & Er & Sr & Hr).
  exists ab, bc, l. repeat split; trivial.
  rewrite Er. do 2 f_equal. apply (@matrix_ext h w); trivial.
  intros i j Hi Hj.
  destruct (at2_shaped Ha Hi Hj) as (x & Ex).
  destruct (at2_shaped Hb Hi Hj) as (y & Ey).
  destruct (at2_shaped Hc Hi Hj) as (z & Ez).
  rewrite (Hr i j x _ Ex (Hbc i j y z Ey Ez)).
  rewrite (Hl i j _ z (Hab i j x y Ex Ey) Ez). now rewrite Hassoc.
Qed.

(** X4.  [a * k] and [k * a] for a number [k]: both return the matrix of the
    shape of [a] whose entry [i][j] is [a[i][j] * k]. *)
Theorem scalar_mul_entries (h w : nat) (a : Matrix.t T) (k : T) :
  shaped h w a ->
  exists c,
    Matrix.mul a (ONum k) = Ok (PMat c) /\
    Matrix.rmul a (ONum k) = Ok (PMat c) /\
    shaped h w c /\
    forall i j x, Matrix.at2 a i j = Ok x -> Matrix.at2 c i j = Ok (num_mul x k).
Proof.
  intros Ha. unfold Matrix.rmul, Matrix.mul. rewrite (shaped_height Ha).
  destruct (Nat.eq_dec h 0) as [->|Hpos].
  - exists (Matrix []). simpl. repeat split; try constructor.
    intros i j x Ex. pose proof (@at2_bounds _ _ _ _ _ _ Ha Ex). lia.
  - rewrite (shaped_width Ha) by lia.
    destruct (@build_matrix h w
                (fun i j => x <- Matrix.at2 a i j ;; Ok (num_mul x k)))
      as (r & Er & Sr & Hr).
    { intros i j Hi Hj. destruct (at2_shaped Ha Hi Hj) as (x & ->).
      simpl. eauto. }
    rewrite Er. cbn [bind]. exists (Matrix r). repeat split; try apply Sr.
    intros i j x Ex. destruct (@at2_bounds _ _ _ _ _ _ Ha Ex) as [Hi Hj].
    rewrite (Hr i j Hi Hj), Ex. reflexivity.
Qed.

(** [a * b] for an [h] x [n] and an [n] x [w] rectangular matrix: an
    [h] x [w] matrix whose entry [i][j] is the sum accumulated over [k] of
    [a[i][k] * b[k][j]], starting from 0. *)
Lemma mul_entries (h n w : nat) (a b : Matrix.t T) :
  (0 < h)%nat -> (0 < n)%nat ->
  shaped h n a -> shaped n w b ->
  exists c,
    Matrix.mul a (OMat b) = Ok (PMat c) /\ shaped h w c /\
    forall i j, (i < h)%nat -> (j < w)%nat ->
      Matrix.at2 c i j
      = foldM (fun sum_val k =>
                 x <- Matrix.at2 a i k ;;
                 y <- Matrix.at2 b k j ;;
                 Ok (num_add sum_val (num_mul x y)))
              (seq 0 n) (num_of_Z 0).
Proof.
  intros Hh Hn Ha Hb. unfold Matrix.mul.
  rewrite (shaped_width Ha Hh), (shaped_height Hb), Nat.eqb_refl. cbn [negb].
  rewrite (shaped_height Ha), (shaped_width Hb Hn).
  destruct (@build_matrix h w
              (fun i j => foldM (fun sum_val k =>
                                   x <- Matrix.at2 a i k ;;
                                   y <- Matrix.at2 b k j ;;
                                   Ok (num_add sum_val (num_mul x y)))
                                (seq 0 n) (num_of_Z 0)))
    as (r & Er & Sr & Hr).
  { intros i j Hi Hj. apply foldM_total. intros acc k Hk. apply in_seq in Hk.
    destruct (at2_shaped (i := i) (j := k) Ha) as (x & ->); [lia | lia |].
    destruct (at2_shaped (i := k) (j := j) Hb) as (y & ->); [lia | lia |].
    simpl. eauto. }
  rewrite Er. cbn [bind]. exists (Matrix r). repeat split; try apply Sr.
  exact Hr.
Qed.

End Generic.

Lemma add_comm_witness :
  Matrix.add (Matrix [[1; 2]; [3; 4]]%Z) (Matrix [[5; 6]; [7; 8]]%Z)
  = Matrix.add (Matrix [[5; 6]; [7; 8]]%Z) (Matrix [[1; 2]; [3; 4]]%Z).
Proof.
  apply (@add_comm Z _ 2 2).
  - exact Z.add_comm.
  - split; [reflexivity | repeat constructor].
  - split; [reflexivity | repeat constructor].
Defined.

Lemma add_assoc_witness :
  exists ab bc abc,
    Matrix.add (Matrix [[1; 2]]%Z) (Matrix [[3; 4]]%Z) = Ok (PMat ab) /\
    Matrix.add (Matrix [[3; 4]]%Z) (Matrix [[5; 6]]%Z) = Ok (PMat bc) /\
    Matrix.add ab (Matrix [[5; 6]]%Z) = Ok (PMat abc) /\
    Matrix.add (Matrix [[1; 2]]%Z) bc = Ok (PMat abc).
Proof.
  apply (@add_assoc Z _ 1 2).
  - intros x y z. symmetry. apply Z.add_assoc.
  - split; [reflexivity | repeat constructor].
  - split; [reflexivity | repeat constructor].
  - split; [reflexivity | repeat constructor].
Defined.

Lemma add_entries_witness :
  exists c,
    Matrix.add (Matrix [[1; 2]; [3; 4]]%Z) (Matrix [[5; 6]; [7; 8]]%Z) = Ok (PMat c) /\
    Matrix.shaped 2 2 c /\
    forall i j x y,
      Matrix.at2 (Matrix [[1; 2]; [3; 4]]%Z) i j = Ok x ->
      Matrix.at2 (Matrix [[5; 6]; [7; 8]]%Z) i j = Ok y ->
      Matrix.at2 c i j = Ok (num_add x y).
Proof.
  apply add_entries; (split; [reflexivity | repeat constructor]).
Defined.

Lemma scalar_mul_entries_witness :
  exists c,
    Matrix.mul (Matrix [[1; 2]; [3; 4]]%Z) (ONum 3%Z) = Ok (PMat c) /\
    Matrix.rmul (Matrix [[1; 2]; [3; 4]]%Z) (ONum 3%Z) = Ok (PMat c) /\
    Matrix.shaped 2 2 c /\
    forall i j x, Matrix.at2 (Matrix [[1; 2]; [3; 4]]%Z) i j = Ok x ->
                  Matrix.at2 c i j = Ok (num_mul x 3%Z).
Proof.
  apply scalar_mul_entries. split; [reflexivity | repeat constructor].
Defined.

(** *** Product with the identity, on integers *)

Lemma identity_shaped (n : nat) : Matrix.shaped n n (identity n).
Proof.
  unfold identity. split; simpl.
  - now rewrite length_map, length_seq.
  - apply Forall_forall. intros row Hrow. apply in_map_iff in Hrow.
    destruct Hrow as (i & <- & _). now rewrite length_map, length_seq.
Qed.

Lemma identity_entry (n k j : nat) :
  (k < n)%nat -> (j < n)%nat ->
  Matrix.at2 (identity n) k j = Ok (if k =? j then 1%Z else 0%Z).
Proof.
  intros Hk Hj. apply at2_nth. unfold identity. simpl.
  eexists. split.
  - rewrite nth_error_map, nth_error_seq.
    replace (k <? n) with true by (symmetry; now apply Nat.ltb_lt).
    reflexivity.
  - rewrite nth_error_map, nth_error_seq.
    replace (j <? n) with true by (symmetry; now apply Nat.ltb_lt).
    reflexivity.
Qed.

(** The accumulation of [a[i][k] * I[k][j]] over a range of [k] adds
    [a[i][j]] exactly when [j] is in the range. *)
Lemma dot_unit (n : nat) (a : Matrix.t Z) (i j : nat) (e : nat -> Z) :
  (j < n)%nat ->
  (forall k, (k < n)%nat -> Matrix.at2 a i k = Ok (e k)) ->
  forall m k0 s,
    (k0 + m <= n)%nat ->
    foldM (fun sum_val k =>
             x <- Matrix.at2 a i k ;;
             y <- Matrix.at2 (identity n) k j ;;
             Ok (num_add sum_val (num_mul x y)))
          (seq k0 m) s
    = Ok (s + (if ((k0 <=? j) && (j <? k0 + m))%nat then e j else 0))%Z.
Proof.
  intros Hj He. induction m as [|m IH]; intros k0 s Hm.
  - simpl. f_equal.
    replace ((k0 <=? j) && (j <? k0 + 0)) with false; [lia|].
    symmetry. apply andb_false_iff.
    destruct (Nat.lt_ge_cases j k0); [left; apply Nat.leb_gt | right; apply Nat.ltb_ge]; lia.
  - cbn [seq foldM]. rewrite He, identity_entry by lia. cbn [bind].
    rewrite IH by lia. f_equal. cbn [num_add num_mul Number_Z].
    destruct (Nat.eqb_spec k0 j) as [->|Hne].
    + replace ((S j <=? j) && (j <? S j + m)) with false
        by (symmetry; apply andb_false_iff; left; apply Nat.leb_gt; lia).
      replace ((j <=? j) && (j <? j + S m)) with true
        by (symmetry; apply andb_true_iff; split;
            [apply Nat.leb_le | apply Nat.ltb_lt]; lia).
      lia.
    + replace ((S k0 <=? j) && (j <? S k0 + m))
        with ((k0 <=? j) && (j <? k0 + S m)); [lia|].
      replace (k0 + S m)%nat with (S k0 + m)%nat by lia.
      f_equal.
      destruct (Nat.leb_spec k0 j), (Nat.leb_spec (S k0) j); try reflexivity; lia.
Qed.

(** X5.  [M * I = M]: the product of an [h] x [n] integer matrix ([h] > 0) with
    the [n] x [n] identity returns the matrix itself. *)
Theorem mul_identity_right (h n : nat) (a : Matrix.t Z) :
  (0 < h)%nat -> (0 < n)%nat ->
  Matrix.shaped h n a ->
  Matrix.mul a (OMat (identity n)) = Ok (PMat a).
Proof.
  intros Hh Hn Ha.
  destruct (@mul_entries Z _ h n n a (identity n) Hh Hn Ha (identity_shaped n))
    as (c & -> & Sc & Hc).
  do 2 f_equal. apply (@matrix_ext Z h n); trivial.
  intros i j Hi Hj. rewrite (Hc i j Hi Hj).
  destruct (at2_shaped Ha Hi Hj) as (x & Ex). rewrite Ex.
  assert (He : exists e, forall k, (k < n)%nat -> Matrix.at2 a i k = Ok (e k)).
  { exists (fun k => match Matrix.at2 a i k with Ok v => v | Raise _ => 0%Z end).
    intros k Hk. destruct (at2_shaped Ha Hi Hk) as (v & ->). reflexivity. }
  destruct He as (e & He).
  rewrite (@dot_unit n a i j e Hj He n 0 (num_of_Z 0%Z)) by lia.
  rewrite He in Ex by lia. injection Ex as <-.
  replace ((0 <=? j) && (j <? 0 + n)) with true
    by (symmetry; apply andb_true_iff; split;
        [apply Nat.leb_le | apply Nat.ltb_lt]; lia).
  reflexivity.
Qed.

Lemma mul_identity_right_witness :
  Matrix.mul (Matrix [[1; 2; 3]; [4; 5; 6]]%Z) (OMat (identity 3))
  = Ok (PMat (Matrix [[1; 2; 3]; [4; 5; 6]]%Z)).
Proof.
  apply (@mul_identity_right 2 3); try lia.
  split; [reflexivity | repeat constructor].
Defined.

(** The product of an [h] x [n] and an [n] x [w] rectangular matrix
    ([h], [n] > 0) returns an [h] x [w] matrix. *)
Theorem mul_shape {T : Type} `{Number T} (h n w : nat) (a b : Matrix.t T) :
  (0 < h)%nat -> (0 < n)%nat ->
  Matrix.shaped h n a -> Matrix.shaped n w b ->
  exists c, Matrix.mul a (OMat b) = Ok (PMat c) /\ Matrix.shaped h w c.
Proof.
  intros Hh Hn Ha Hb.
  destruct (mul_entries Hh Hn Ha Hb) as (c & Ec & Sc & _). eauto.
Qed.

Lemma mul_shape_witness :
  exists c,
    Matrix.mul (Matrix [[1; 2; 3]; [4; 5; 6]]%Z) (OMat (Matrix [[1]; [0]; [2]]%Z))
    = Ok (PMat c) /\ Matrix.shaped 2 1 c.
Proof.
  apply (@mul_shape Z _ 2 3 1); try lia;
    (split; [reflexivity | repeat constructor]).
Defined.

(** *** sub and det on rectangular matrices *)

Lemma remove_nth_length {X : Type} (n : nat) (l : list X) :
  (n < length l)%nat -> length (remove_nth n l) = (length l - 1)%nat.
Proof.
  intros Hn. unfold remove_nth.
  rewrite length_app, length_firstn, length_skipn. lia.
Qed.

Lemma remove_nth_beyond {X : Type} (n : nat) (l : list X) :
  (length l <= n)%nat -> remove_nth n l = l.
Proof.
  intros Hn. unfold remove_nth.
  rewrite firstn_all2 by lia. rewrite skipn_all2 by lia. apply app_nil_r.
Qed.

Lemma remove_nth_In {X : Type} (n : nat) (l : list X) (x : X) :
  In x (remove_nth n l) -> In x l.
Proof.
  unfold remove_nth. intros Hx. apply in_app_or in Hx.
  rewrite <- (firstn_skipn n l). apply in_or_app.
  destruct Hx as [Hx|Hx]; [now left | right].
  rewrite <- (firstn_skipn 1 (skipn n l)). apply in_or_app. right.
  now rewrite skipn_skipn.
Qed.

Lemma submatrix_spec_shaped {T : Type} (h w : nat) (m : Matrix.t T) (x y : nat) :
  Matrix.shaped h w m -> (x < h)%nat -> (y < w)%nat ->
  Matrix.shaped (h - 1) (w - 1) (submatrix_spec m x y).
Proof.
  intros [Hh Hw] Hx Hy. unfold submatrix_spec. split; simpl.
  - rewrite length_map, remove_nth_length; lia.
  - apply Forall_forall. intros row Hrow. apply in_map_iff in Hrow.
    destruct Hrow as (r & <- & Hr). apply remove_nth_In in Hr.
    rewrite Forall_forall in Hw. specialize (Hw r Hr).
    rewrite remove_nth_length; lia.
Qed.

(** X6.  [sub(y, x)] on an [h] x [w] rectangular matrix with [x < h] and
    [y < w] returns the [(h-1)] x [(w-1)] matrix made of the rows other than
    row [x], each without its element [y], in their original order. *)
Theorem sub_removes_row_x_column_y {T : Type} (h w : nat) (m : Matrix.t T)
    (y x : nat) :
  Matrix.shaped h w m -> (x < h)%nat -> (y < w)%nat ->
  exists r,
    Matrix.sub m y x = Ok r /\
    Matrix.shaped (h - 1) (w - 1) r /\
    Matrix.data r = map (remove_nth y) (remove_nth x (Matrix.data m)).
Proof.
  intros Hm Hx Hy. exists (submatrix_spec m x y).
  split; [now apply (@sub_is_submatrix_swapped T h w) |].
  split; [now apply submatrix_spec_shaped | reflexivity].
Qed.

Lemma sub_removes_row_x_column_y_witness :
  exists r,
    Matrix.sub (Matrix [[1; 2; 3]; [4; 5; 6]]%Z) 2 0 = Ok r /\
    Matrix.shaped (2 - 1) (3 - 1) r /\
    Matrix.data r
    = map (remove_nth 2) (remove_nth 0 (Matrix.data (Matrix [[1; 2; 3]; [4; 5; 6]]%Z))).
Proof.
  apply sub_removes_row_x_column_y; try lia.
  split; [reflexivity | repeat constructor].
Defined.

(** X7.  [sub] never raises on a rectangular matrix, whatever the indices: an
    index past the end removes nothing, and with both indices past the end
    the result is a copy of the matrix. *)
Theorem sub_out_of_range {T : Type} (h w : nat) (m : Matrix.t T) (y x : nat) :
  Matrix.shaped h w m ->
  (exists r, Matrix.sub m y x = Ok r) /\
  ((h <= x)%nat -> (w <= y)%nat -> Matrix.sub m y x = Ok m).
Proof.
  intros Hm. rewrite (@sub_is_submatrix_swapped T h w m y x Hm).
  split; [eauto|]. intros Hx Hy. f_equal.
  destruct m as [rows]. unfold submatrix_spec. simpl. f_equal.
  destruct Hm as [Hh Hw]. simpl in *.
  rewrite remove_nth_beyond by lia.
  rewrite <- (map_id rows) at 2. apply map_ext_in. intros row Hrow.
  rewrite Forall_forall in Hw. apply remove_nth_beyond. rewrite (Hw row Hrow). lia.
Qed.

Lemma sub_out_of_range_witness :
  (exists r, Matrix.sub (Matrix [[1; 2]; [3; 4]]%Z) 5 7 = Ok r) /\
  ((2 <= 7)%nat -> (2 <= 5)%nat ->
   Matrix.sub (Matrix [[1; 2]; [3; 4]]%Z) 5 7 = Ok (Matrix [[1; 2]; [3; 4]]%Z)).
Proof.
  apply (@sub_out_of_range Z 2 2).
  split; [reflexivity | repeat constructor].
Defined.

Lemma det_rec_eq {T : Type} `{Number T} (fuel : nat) (m : Matrix.t T) :
  Matrix.det_rec fuel m
  = if negb (Matrix.height m =? Matrix.width m) then Ok (PStr "Error"%string)
    else if Matrix.width m =? 1 then
      x <- Matrix.at2 m 0 0 ;; Ok (PNum x)
    else
      s <- foldM (fun acc i =>
                    r <- Matrix.sub m 0 i ;;
                    e <- Matrix.at2 m 0 i ;;
                    d <- match fuel with
                         | O => Raise RecursionError
                         | S fuel' => Matrix.det_rec fuel' r
                         end ;;
                    match d with
                    | PNum dv =>
                        Ok (num_add acc
                              (num_mul (num_mul e dv)
                                       (num_of_Z ((-1) ^ Z.of_nat i))))
                    | _ => Raise TypeError
                    end)
                 (seq 0 (Matrix.height m)) (num_of_Z 0) ;;
      Ok (PNum s).
Proof. destruct fuel; reflexivity. Qed.

Lemma det_rec_square {T : Type} `{Number T} (n : nat) :
  forall m : Matrix.t T,
    Matrix.shaped n n m -> exists v, Matrix.det_rec n m = Ok (PNum v).
Proof.
  induction n as [|f IH]; intros m Hm; rewrite det_rec_eq.
  - rewrite (shaped_height Hm).
    assert (Hw : Matrix.width m = 0%nat).
    { destruct Hm as [Hh _]. unfold Matrix.width.
      apply length_zero_iff_nil in Hh. now rewrite Hh. }
    rewrite Hw. simpl. eauto.
  - rewrite (shaped_height Hm), (shaped_width Hm) by lia.
    rewrite Nat.eqb_refl. cbn [negb].
    destruct (S f =? 1) eqn:E1.
    + destruct (@at2_shaped T (S f) (S f) m 0 0 Hm) as (x & ->); try lia.
      simpl. eauto.
    + apply Nat.eqb_neq in E1.
      match goal with
      | |- context [foldM ?g ?l ?s0] =>
          assert (Hf : forall acc i, In i l -> exists acc', g acc i = Ok acc');
          [| destruct (@foldM_total nat T g l Hf s0) as (t & ->)]
      end.
      * intros acc i Hi. apply in_seq in Hi.
        rewrite (@sub_is_submatrix_swapped T (S f) (S f) m 0 i Hm). cbn [bind].
        destruct (@at2_shaped T (S f) (S f) m 0 i Hm) as (e & ->); try lia.
        cbn [bind].
        destruct (IH (submatrix_spec m i 0)) as (dv & ->).
        { replace f with (S f - 1)%nat at 1 2 by lia.
          apply submatrix_spec_shaped; trivial; lia. }
        cbn [bind]. eauto.
      * cbn [bind]. eauto.
Qed.

(** X8.  [det] on an [n] x [n] rectangular matrix always returns a number: it
    neither raises nor returns ["Error"], for every [n] including 0 (where
    the result is the initial sum 0). *)
Theorem det_square_returns_number {T : Type} `{Number T} (n : nat) (m : Matrix.t T) :
  Matrix.shaped n n m ->
  (exists v, Matrix.det m = Ok (PNum v)) /\
  (n = 0%nat -> Matrix.det m = Ok (PNum (num_of_Z 0))).
Proof.
  intros Hm. unfold Matrix.det. rewrite (shaped_height Hm). split.
  - now apply det_rec_square.
  - intros ->. destruct Hm as [Hh _]. destruct m as [rows]. simpl in Hh.
    apply length_zero_iff_nil in Hh. subst rows. reflexivity.
Qed.

Lemma det_square_returns_number_witness :
  (exists v, Matrix.det (Matrix [[1; 2; 3]; [4; 5; 6]; [7; 8; 10]]%Z) = Ok (PNum v)) /\
  (3%nat = 0%nat ->
   Matrix.det (Matrix [[1; 2; 3]; [4; 5; 6]; [7; 8; 10]]%Z) = Ok (PNum (num_of_Z 0))).
Proof.
  apply (@det_square_returns_number Z _ 3).
  split; [reflexivity | repeat constructor].
Defined.

End MatrixLaws.

(** ** The frame, step by step *)

Module FrameFacts.
Import FlightSimulator.
Local Open Scope R_scope.

Ltac norm :=
  lazy [A B C D state_long state_lat dt flight_time run menu_active crashed
        ground_y elevator aileron rudder plane log global_flight_time
        global_crashed post_flight position
        set_state_long set_state_lat set_flight_time set_run set_menu_active
        set_crashed set_controls set_plane set_log set_post_flight
        end_simulation update_control_inputs toggle_menu
        time_data aoa_data velocity_data gforce_data altitude_data] in *.

Lemma bind_inv {X Y : Type} (c : res X) (k : X -> res Y) (y : Y) :
  bind c k = Ok y -> exists x, c = Ok x /\ k x = Ok y.
Proof.
  destruct c as [x|e]; simpl; intros E; [eauto | discriminate].
Qed.

Ltac bind_inv_in H :=
  let x := fresh "x" in
  let E := fresh "E" in
  apply bind_inv in H; destruct H as (x & E & H).

(** The Euler step writes the two state vectors and nothing else. *)
Lemma update_state_vectors_inv (s s' : sim) :
  update_state_vectors s = Ok s' ->
  exists l t, s' = set_state_lat (set_state_long s l) t.
Proof.
  unfold update_state_vectors. intros E.
  do 5 bind_inv_in E. cbn zeta in E. do 5 bind_inv_in E.
  injection E as <-. eauto.
Qed.

Section Engine.

Variables forward up right : Entity -> Vec3.

Lemma update_plane_inv (s s' : sim) :
  update_plane forward up right s = Ok s' ->
  exists f p,
    frame_of s = Ok f /\ s' = set_plane s p /\
    rotation_z p = 57.2958 * roll_angle f.
Proof.
  unfold update_plane. intros E. bind_inv_in E. injection E as <-.
  eexists _, _. split; [eassumption|]. split; reflexivity.
Qed.

Lemma update_data_inv (s s' : sim) :
  update_data s = Ok s' ->
  exists aoa v g,
    s' = set_log s
           (mk_flight_data (time_data (log s) ++ [flight_time s])
                           (aoa_data (log s) ++ [aoa])
                           (velocity_data (log s) ++ [v])
                           (gforce_data (log s) ++ [g])
                           (altitude_data (log s)
                            ++ [vy (position (plane s)) - ground_y s])).
Proof.
  unfold update_data. intros E. do 4 bind_inv_in E. injection E as <-. eauto.
Qed.

(** What one running frame does to the attributes outside the plane and
    the state vectors. *)
Lemma update_running (held_keys : string -> bool) (s s' : sim) :
  run s = true ->
  update forward up right held_keys s = Ok s' ->
  exists l t p aoa v g,
    let s1 := update_control_inputs held_keys
                (set_flight_time s (flight_time s + dt s)) in
    let s3 := set_plane (set_state_lat (set_state_long s1 l) t) p in
    let s4 := check_ground_collision s3 in
    let s5 := set_log s4
                (mk_flight_data (time_data (log s) ++ [flight_time s + dt s])
                                (aoa_data (log s) ++ [aoa])
                                (velocity_data (log s) ++ [v])
                                (gforce_data (log s) ++ [g])
                                (altitude_data (log s)
                                 ++ [vy (position p) - ground_y s])) in
    update_state_vectors s1 = Ok (set_state_lat (set_state_long s1 l) t) /\
    update_plane forward up right (set_state_lat (set_state_long s1 l) t)
    = Ok s3 /\
    s' = if Rgt_dec (flight_time s + dt s) 120
         then end_simulation (set_run s5 false)
         else s5.
Proof.
  intros Hrun. unfold update. rewrite Hrun. cbn [negb andb]. intros E.
  bind_inv_in E. destruct (update_state_vectors_inv _ E0) as (l & t & ->).
  bind_inv_in E. destruct (update_plane_inv _ E1) as (f & p & Ef & -> & _).
  bind_inv_in E. destruct (update_data_inv _ E2) as (aoa & v & g & ->).
  exists l, t, p, aoa, v, g. cbv zeta. split; [exact E0|]. split; [exact E1|].
  clear E0 E1 E2.
  unfold check_ground_collision in *.
  destruct (Rle_dec _ _).
  all: norm.
  all: destruct (Rgt_dec _ _); injection E as <-; reflexivity.
Qed.

(** The outcome of a running frame, split by the two tests of the frame
    (ground collision, duration cap). *)
Ltac frame_cases Hrun E :=
  let l := fresh "l" in
  let t := fresh "t" in
  let p := fresh "p" in
  let aoa := fresh "aoa" in
  let v := fresh "v" in
  let g := fresh "g" in
  let Es := fresh "Es" in
  let Ep := fresh "Ep" in
  let Hs := fresh "Hs" in
  let Hcap := fresh "Hcap" in
  let Hground := fresh "Hground" in
  destruct (update_running _ _ Hrun E)
    as (l & t & p & aoa & v & g & Es & Ep & Hs);
  clear Es Ep E;
  cbv zeta in Hs; unfold check_ground_collision in Hs;
  destruct (Rgt_dec _ _) as [Hcap|Hcap] in Hs;
  destruct (Rle_dec _ _) as [Hground|Hground] in Hs;
  subst; norm.

Lemma updates_invariant (P : sim -> Prop) :
  (forall k s s', P s -> update forward up right k s = Ok s' -> P s') ->
  forall samples s s',
    P s -> updates forward up right samples s = Ok s' -> P s'.
Proof.
  intros Hstep samples. induction samples as [|k rest IH]; intros s s' Hs E.
  - injection E as <-. exact Hs.
  - simpl in E. bind_inv_in E. eapply IH; [|exact E]. eapply Hstep; eauto.
Qed.

Lemma update_cases (held_keys : string -> bool) (s s' : sim) :
  update forward up right held_keys s = Ok s' ->
  (run s = false /\ s' = s) \/ run s = true.
Proof.
  intros E. destruct (run s) eqn:Hrun; [now right | left].
  rewrite (@SimulatorFacts.update_when_stopped forward up right held_keys s Hrun) in E.
  injection E as <-. auto.
Qed.

(** X14.  Each running frame appends exactly one entry to each of the five
    series of the flight log and a stopped frame appends none, so the
    series stay of equal length over any number of frames. *)
Theorem log_stays_aligned (samples : list (string -> bool)) (s s' : sim) :
  aligned (log s) ->
  updates forward up right samples s = Ok s' ->
  aligned (log s') /\
  (length (time_data (log s)) <= length (time_data (log s'))
   <= length (time_data (log s)) + length samples)%nat.
Proof.
  revert s. induction samples as [|k rest IH]; intros s Hs E.
  - injection E as <-. split; [exact Hs | simpl; lia].
  - simpl in E. bind_inv_in E.
    assert (H1 : aligned (log x) /\
                 (length (time_data (log s)) <= length (time_data (log x))
                  <= length (time_data (log s)) + 1)%nat).
    { destruct (update_cases _ _ E0) as [[_ ->]|Hrun]; [split; [exact Hs | lia]|].
      destruct Hs as (H1 & H2 & H3 & H4).
      frame_cases Hrun E0;
        (split; [unfold aligned; cbn; rewrite !length_app; cbn; repeat split; lia
                | cbn; rewrite !length_app; cbn; lia]). }
    destruct H1 as [Hx Hlen]. destruct (IH x Hx E) as [Hs' Hlen'].
    split; [exact Hs' | simpl; lia].
Qed.

(** X16.  A running frame that takes the flight time past 120 seconds stops the
    simulation and ends it: [run] is off, the globals receive the flight
    time and the crash flag, and PostFlight is handed the log including
    this frame's entries.  Up to 120 seconds nothing is handed over. *)
Theorem duration_cap (held_keys : string -> bool) (s s' : sim) :
  run s = true ->
  update forward up right held_keys s = Ok s' ->
  flight_time s' = flight_time s + dt s /\
  (flight_time s + dt s > 120 ->
   run s' = false /\ post_flight s' = Some (log s') /\
   global_flight_time s' = flight_time s' /\ global_crashed s' = crashed s') /\
  (flight_time s + dt s <= 120 ->
   post_flight s' = post_flight s /\
   global_flight_time s' = global_flight_time s /\
   global_crashed s' = global_crashed s).
Proof.
  intros Hrun E. frame_cases Hrun E;
    (split; [reflexivity|]); (split; intros Hc; try lra; auto).
Qed.

(** X15.  A running frame whose plane ends with its lowest point (one unit
    below its position) at or below the ground ends crashed and stopped;
    otherwise the crash flag keeps its value. *)
Theorem ground_collision (held_keys : string -> bool) (s s' : sim) :
  run s = true ->
  update forward up right held_keys s = Ok s' ->
  ground_y s' = ground_y s /\
  (vy (position (plane s')) - 1 <= ground_y s ->
   crashed s' = true /\ run s' = false) /\
  (vy (position (plane s')) - 1 > ground_y s ->
   crashed s' = crashed s).
Proof.
  intros Hrun E. frame_cases Hrun E;
    (split; [reflexivity|]); (split; intros Hc; try lra; auto).
Qed.

(** X17.  The Escape handler does not look at the crash flag: after a crash,
    two presses of Escape switch [run] back on and the next frame advances
    the simulation again. *)
Theorem escape_twice_restarts_crashed_flight (held_keys : string -> bool) (s : sim) :
  steady s ->
  run s = false -> crashed s = true -> menu_active s = false ->
  exists s',
    update forward up right held_keys (toggle_menu (toggle_menu s)) = Ok s' /\
    crashed s' = true /\
    flight_time s' = flight_time s + dt s.
Proof.
  intros Hs Hrun Hcr Hm.
  set (s2 := toggle_menu (toggle_menu s)).
  assert (H2 : steady s2) by (apply (@SimulatorFacts.steady_ext s s2); trivial).
  assert (Hrun2 : run s2 = true).
  { unfold s2, toggle_menu. cbn. now rewrite Hm. }
  assert (Hcr2 : crashed s2 = true) by exact Hcr.
  destruct (@SimulatorFacts.update_steady forward up right held_keys s2 H2)
    as (s' & E & _).
  exists s'. split; [exact E|].
  frame_cases Hrun2 E; auto.
Qed.

Lemma update_keeps_controls_bounded (held_keys : string -> bool) (s s' : sim) :
  controls_bounded s ->
  update forward up right held_keys s = Ok s' ->
  controls_bounded s'.
Proof.
  intros Hb E.
  destruct (update_cases _ _ E) as [[_ ->]|Hrun]; [exact Hb|].
  destruct Hb as (Hdt & He & Ha & Hr).
  assert (Hstep : forall c inc dec,
             Rabs c <= 5 + 3 * dt s ->
             Rabs (update_control_surface held_keys (dt s) c inc dec 5)
             <= 5 + 3 * dt s).
  { intros c inc dec Hc.
    assert (Hrange : - (5 + 3 * dt s) <= c <= 5 + 3 * dt s).
    { unfold Rabs in Hc. destruct (Rcase_abs c); lra. }
    pose proof (@ControlFacts.control_overshoot_bound held_keys (dt s) c inc dec
                  Hdt Hrange) as Hbound.
    unfold Rabs. destruct (Rcase_abs _); lra. }
  frame_cases Hrun E; unfold controls_bounded; norm; auto.
Qed.

(** X13.  The guards of [update_control_surface] bound the overshoot: with
    0 <= dt <= 5/2, controls within 5 + 3*dt in magnitude stay so over any
    number of frames, whatever keys are held. *)
Theorem controls_stay_bounded (samples : list (string -> bool)) (s s' : sim) :
  controls_bounded s ->
  updates forward up right samples s = Ok s' ->
  controls_bounded s'.
Proof.
  apply (updates_invariant controls_bounded).
  intros k s0 s1. apply update_keeps_controls_bounded.
Qed.

Lemma frame_of_inv (s : sim) (f : frame) :
  frame_of s = Ok f ->
  exists b th ps ph c u w,
    entry (state_lat s) 0 0 = Ok b /\ entry (state_long s) 2 0 = Ok th /\
    entry (state_lat s) 2 0 = Ok ps /\ entry (state_lat s) 3 0 = Ok ph /\
    Matrix.at2 (A s) 1 2 = Ok c /\ entry (state_long s) 0 0 = Ok u /\
    entry (state_long s) 1 0 = Ok w /\
    f = mk_frame (b / 57.2958) (- th / 57.2958) (ps / 57.2958) (ph / 57.2958)
                 c (u + c) ((u + c) * cos (b / 57.2958)) w
                 ((u + c) * sin (b / 57.2958)).
Proof.
  unfold frame_of. intros E. do 7 bind_inv_in E. injection E as <-.
  eexists _, _, _, _, _, _, _. repeat split; eassumption.
Qed.


(** X11.  The frame transform splits the airspeed [v] into a forward and a
    lateral component without changing its magnitude:
    fv^2 + hv^2 = v^2, and the vertical component is [state_long[1][0]]. *)
Theorem velocity_decomposition (s : sim) (f : frame) :
  frame_of s = Ok f ->
  fv f * fv f + hv f * hv f = v f * v f /\
  entry (state_long s) 1 0 = Ok (vv f).
Proof.
  intros Ef.
  destruct (frame_of_inv _ Ef) as (b & th & ps & ph & c & u & w & _ & _ & _ & _ & _ & _ & Ew & ->).
  cbn [fv hv v vv]. split; [|exact Ew].
  pose proof (sin2_cos2 (b / 57.2958)) as Hsc. unfold Rsqr in Hsc.
  replace ((u + c) * cos (b / 57.2958) * ((u + c) * cos (b / 57.2958))
           + (u + c) * sin (b / 57.2958) * ((u + c) * sin (b / 57.2958)))
    with ((u + c) * (u + c)
          * (sin (b / 57.2958) * sin (b / 57.2958)
             + cos (b / 57.2958) * cos (b / 57.2958))) by ring.
  rewrite Hsc. ring.
Qed.

End Engine.

(** *** The Euler step, row by row *)

Ltac explicit_model Hs :=
  let HA := fresh "HA" in
  let HB := fresh "HB" in
  let HC := fresh "HC" in
  let HD := fresh "HD" in
  let Hl := fresh "Hl" in
  let Ht := fresh "Ht" in
  destruct Hs as [HA HB HC HD (?ml & ?El & Hl) (?mt & ?Et & Ht)];
  destruct (SimulatorFacts.shaped_4_4_inv HA)
    as (?a & ?a & ?a & ?a & ?a & ?a & ?a & ?a & ?a & ?a & ?a & ?a & ?a & ?a & ?a & ?a & ?EA);
  destruct (SimulatorFacts.shaped_4_4_inv HC)
    as (?c & ?c & ?c & ?c & ?c & ?c & ?c & ?c & ?c & ?c & ?c & ?c & ?c & ?c & ?c & ?c & ?EC);
  destruct (SimulatorFacts.shaped_4_1_inv HB) as (?b & ?b & ?b & ?b & ?EB);
  destruct (SimulatorFacts.shaped_4_2_inv HD)
    as (?d & ?d & ?d & ?d & ?d & ?d & ?d & ?d & ?ED);
  destruct (SimulatorFacts.shaped_4_1_inv Hl) as (?x & ?x & ?x & ?x & ?Eml);
  destruct (SimulatorFacts.shaped_4_1_inv Ht) as (?y & ?y & ?y & ?y & ?Emt);
  clear HA HB HC HD Hl Ht.

(** X9.  Row [i] of the longitudinal step is
    x_i + (A[i][0] x_0 + A[i][1] x_1 + A[i][2] x_2 + A[i][3] x_3
           + B[i][0] * elevator) * dt. *)
Theorem euler_step_longitudinal (s s' : sim) (i : nat)
    (a0 a1 a2 a3 b x0 x1 x2 x3 xi : R) :
  well_shaped s ->
  update_state_vectors s = Ok s' ->
  Matrix.at2 (A s) i 0 = Ok a0 -> Matrix.at2 (A s) i 1 = Ok a1 ->
  Matrix.at2 (A s) i 2 = Ok a2 -> Matrix.at2 (A s) i 3 = Ok a3 ->
  Matrix.at2 (B s) i 0 = Ok b ->
  entry (state_long s) 0 0 = Ok x0 -> entry (state_long s) 1 0 = Ok x1 ->
  entry (state_long s) 2 0 = Ok x2 -> entry (state_long s) 3 0 = Ok x3 ->
  entry (state_long s) i 0 = Ok xi ->
  entry (state_long s') i 0
  = Ok (xi + (a0 * x0 + a1 * x1 + a2 * x2 + a3 * x3 + b * elevator s) * dt s).
Proof.
  intros Hs E Ha0 Ha1 Ha2 Ha3 Hb Hx0 Hx1 Hx2 Hx3 Hxi.
  explicit_model Hs. destruct s. norm. subst.
  unfold update_state_vectors in E. norm. cbn in E. injection E as <-. norm.
  do 4 (destruct i as [|i]; [cbn in *; 
        injection Ha0 as <-; injection Ha1 as <-; injection Ha2 as <-;
        injection Ha3 as <-; injection Hb as <-; injection Hx0 as <-;
        injection Hx1 as <-; injection Hx2 as <-; injection Hx3 as <-;
        injection Hxi as <-; f_equal; ring |]).
  cbn in Hb. destruct i; discriminate.
Qed.

(** X10.  Row [i] of the lateral step is
    y_i + (C[i][0] y_0 + C[i][1] y_1 + C[i][2] y_2 + C[i][3] y_3
           + D[i][0] * aileron + D[i][1] * rudder) * dt: [D] is used as a
    4x2 matrix applied to the column [aileron; rudder]. *)
Theorem euler_step_lateral (s s' : sim) (i : nat)
    (c0 c1 c2 c3 d0 d1 y0 y1 y2 y3 yi : R) :
  well_shaped s ->
  update_state_vectors s = Ok s' ->
  Matrix.at2 (C s) i 0 = Ok c0 -> Matrix.at2 (C s) i 1 = Ok c1 ->
  Matrix.at2 (C s) i 2 = Ok c2 -> Matrix.at2 (C s) i 3 = Ok c3 ->
  Matrix.at2 (D s) i 0 = Ok d0 -> Matrix.at2 (D s) i 1 = Ok d1 ->
  entry (state_lat s) 0 0 = Ok y0 -> entry (state_lat s) 1 0 = Ok y1 ->
  entry (state_lat s) 2 0 = Ok y2 -> entry (state_lat s) 3 0 = Ok y3 ->
  entry (state_lat s) i 0 = Ok yi ->
  entry (state_lat s') i 0
  = Ok (yi + (c0 * y0 + c1 * y1 + c2 * y2 + c3 * y3
              + d0 * aileron s + d1 * rudder s) * dt s).
Proof.
  intros Hs E Hc0 Hc1 Hc2 Hc3 Hd0 Hd1 Hy0 Hy1 Hy2 Hy3 Hyi.
  explicit_model Hs. destruct s. norm. subst.
  unfold update_state_vectors in E. norm. cbn in E. injection E as <-. norm.
  do 4 (destruct i as [|i]; [cbn in *;
        injection Hc0 as <-; injection Hc1 as <-; injection Hc2 as <-;
        injection Hc3 as <-; injection Hd0 as <-; injection Hd1 as <-;
        injection Hy0 as <-; injection Hy1 as <-; injection Hy2 as <-;
        injection Hy3 as <-; injection Hyi as <-; f_equal; ring |]).
  cbn in Hd0. destruct i; discriminate.
Qed.

(** *** Loading the matrices *)

Ltac explode_rows combo n :=
  do n (destruct combo as [|? combo]; try discriminate).



(** X19.  Nothing checks the number of rows: with the sixteenth row missing,
    [D] has three rows, construction goes through, and the first running
    frame raises [TypeError] (the sum of a 4x1 and a 3x1 matrix is the
    string ["Error"], which is then multiplied by dt). *)
Theorem missing_row_fails_in_first_frame (forward up right : Entity -> Vec3)
    (matrix_combo : list (list R)) (held_keys : string -> bool) :
  map (@length R) matrix_combo
  = [4; 4; 4; 4; 1; 1; 1; 1; 4; 4; 4; 4; 2; 2; 2]%nat ->
  update forward up right held_keys (setup_physics matrix_combo) = Raise TypeError.
Proof.
  intros Hlen.
  do 16 (destruct matrix_combo as [|? matrix_combo]; try discriminate Hlen).
  cbn [map] in Hlen.
  injection Hlen as H0 H1 H2 H3 H4 H5 H6 H7 H8 H9 H10 H11 H12 H13 H14.
  repeat match goal with
         | H : length ?r = _ |- _ =>
             destruct r as [|? [|? [|? [|? [|? ?]]]]]; try discriminate H; clear H
         end.
  unfold update, setup_physics, init, slice. norm.
  cbn [negb andb firstn skipn Nat.sub].
  unfold update_state_vectors. norm. cbn. reflexivity.
Qed.

Lemma missing_row_fails_in_first_frame_witness :
  update sample_forward sample_up sample_right no_keys
         (setup_physics (Matrix.data sample_A ++ Matrix.data sample_B
                         ++ Matrix.data sample_C
                         ++ firstn 3 (Matrix.data sample_D)))
  = Raise TypeError.
Proof.
  apply missing_row_fails_in_first_frame. reflexivity.
Defined.

(** *** The frame theorems on the sample model *)

Lemma sample_steady : steady sample_sim.
Proof. split; [exact SimulatorFacts.sample_well_shaped | simpl; lra]. Qed.

Lemma log_stays_aligned_witness :
  exists s',
    updates sample_forward sample_up sample_right
            [only_key "w"; no_keys; only_key "a"] sample_sim = Ok s' /\
    aligned (log s') /\
    (length (time_data (log sample_sim)) <= length (time_data (log s'))
     <= length (time_data (log sample_sim)) + 3)%nat.
Proof.
  destruct (@SimulatorFacts.updates_steady sample_forward sample_up sample_right
              [only_key "w"; no_keys; only_key "a"] sample_sim sample_steady)
    as (s' & E & _).
  exists s'. split; [exact E|].
  apply (@log_stays_aligned sample_forward sample_up sample_right
           [only_key "w"; no_keys; only_key "a"] sample_sim s'); [|exact E].
  repeat split.
Defined.

Lemma duration_cap_witness :
  exists s',
    update sample_forward sample_up sample_right no_keys
           (set_flight_time sample_sim 120) = Ok s' /\
    run s' = false /\ post_flight s' = Some (log s') /\
    global_flight_time s' = flight_time s' /\ global_crashed s' = crashed s'.
Proof.
  destruct (@SimulatorFacts.update_steady sample_forward sample_up sample_right
              no_keys (set_flight_time sample_sim 120))
    as (s' & E & _).
  { apply (@SimulatorFacts.steady_ext sample_sim); try reflexivity.
    exact sample_steady. }
  exists s'. split; [exact E|].
  destruct (@duration_cap sample_forward sample_up sample_right no_keys
              (set_flight_time sample_sim 120) s' eq_refl E) as (_ & Hcap & _).
  apply Hcap. simpl. lra.
Defined.

Lemma ground_collision_witness :
  exists s',
    update sample_forward sample_up sample_right no_keys sample_sim = Ok s' /\
    ground_y s' = ground_y sample_sim /\
    (vy (position (plane s')) - 1 <= ground_y sample_sim ->
     crashed s' = true /\ run s' = false) /\
    (vy (position (plane s')) - 1 > ground_y sample_sim ->
     crashed s' = crashed sample_sim).
Proof.
  destruct (@SimulatorFacts.update_steady sample_forward sample_up sample_right
              no_keys sample_sim sample_steady) as (s' & E & _).
  exists s'. split; [exact E|].
  exact (@ground_collision sample_forward sample_up sample_right no_keys
           sample_sim s' eq_refl E).
Defined.

Lemma escape_twice_restarts_crashed_flight_witness :
  exists s',
    update sample_forward sample_up sample_right no_keys
           (toggle_menu (toggle_menu crashed_sim)) = Ok s' /\
    crashed s' = true /\
    flight_time s' = flight_time crashed_sim + dt crashed_sim.
Proof.
  apply escape_twice_restarts_crashed_flight.
  - apply (@SimulatorFacts.steady_ext sample_sim); try reflexivity.
    exact sample_steady.
  - reflexivity.
  - reflexivity.
  - reflexivity.
Defined.

Lemma controls_stay_bounded_witness :
  exists s',
    updates sample_forward sample_up sample_right
            [only_key "w"; only_key "w"; only_key "s"] sample_sim = Ok s' /\
    controls_bounded s'.
Proof.
  destruct (@SimulatorFacts.updates_steady sample_forward sample_up sample_right
              [only_key "w"; only_key "w"; only_key "s"] sample_sim sample_steady)
    as (s' & E & _).
  exists s'. split; [exact E|].
  apply (@controls_stay_bounded sample_forward sample_up sample_right
           [only_key "w"; only_key "w"; only_key "s"] sample_sim s'); [|exact E].
  unfold controls_bounded. simpl. rewrite Rabs_R0. lra.
Defined.


Lemma velocity_decomposition_witness :
  exists f,
    frame_of sample_sim = Ok f /\
    fv f * fv f + hv f * hv f = v f * v f /\
    entry (state_long sample_sim) 1 0 = Ok (vv f).
Proof.
  eexists. split; [reflexivity|].
  apply velocity_decomposition. reflexivity.
Defined.

Lemma euler_step_longitudinal_witness :
  exists s',
    update_state_vectors (set_controls sample_sim 2 0 0) = Ok s' /\
    entry (state_long s') 1 0
    = Ok (0 + (-0.1 * 0 + -1 * 0 + 50 * 0 + 0 * 0 + -0.1 * 2) * 0.01667).
Proof.
  destruct (@SimulatorFacts.update_state_vectors_shaped (set_controls sample_sim 2 0 0))
    as (l & t & _ & _ & E).
  { apply (@SimulatorFacts.well_shaped_ext sample_sim); try reflexivity.
    exact SimulatorFacts.sample_well_shaped. }
  eexists. split; [exact E|].
  apply (@euler_step_longitudinal (set_controls sample_sim 2 0 0) _ 1
           (-0.1) (-1) 50 0 (-0.1) 0 0 0 0 0); try reflexivity; [|exact E].
  apply (@SimulatorFacts.well_shaped_ext sample_sim); try reflexivity.
  exact SimulatorFacts.sample_well_shaped.
Defined.

Lemma euler_step_lateral_witness :
  exists s',
    update_state_vectors (set_controls sample_sim 0 1 2) = Ok s' /\
    entry (state_lat s') 1 0
    = Ok (0 + (-2 * 0 + -1 * 0 + 0.5 * 0 + 0 * 0 + 3 * 1 + 0.2 * 2) * 0.01667).
Proof.
  destruct (@SimulatorFacts.update_state_vectors_shaped (set_controls sample_sim 0 1 2))
    as (l & t & _ & _ & E).
  { apply (@SimulatorFacts.well_shaped_ext sample_sim); try reflexivity.
    exact SimulatorFacts.sample_well_shaped. }
  eexists. split; [exact E|].
  apply (@euler_step_lateral (set_controls sample_sim 0 1 2) _ 1
           (-2) (-1) 0.5 0 3 0.2 0 0 0 0 0); try reflexivity; [|exact E].
  apply (@SimulatorFacts.well_shaped_ext sample_sim); try reflexivity.
  exact SimulatorFacts.sample_well_shaped.
Defined.

End FrameFacts.

(** ** Accounts: UserManager *)

Module AccountFacts.
Import UserManager.
Local Open Scope Z_scope.

Lemma str_eqb_eq (a b : pystr) : str_eqb a b = true <-> a = b.
Proof.
  revert b. induction a as [|x a IH]; intros [|y b]; simpl;
    try (split; [discriminate | discriminate]); [tauto|].
  rewrite andb_true_iff, N.eqb_eq, IH. split.
  - intros [-> ->]. reflexivity.
  - intros E. injection E as -> ->. auto.
Qed.

Lemma str_eqb_refl (a : pystr) : str_eqb a a = true.
Proof. now apply str_eqb_eq. Qed.

Lemma find_app_last {X : Type} (f : X -> bool) (l : list X) (x : X) :
  find f (l ++ [x])
  = match find f l with
    | Some y => Some y
    | None => if f x then Some x else None
    end.
Proof.
  induction l as [|y l IH]; simpl; [reflexivity|].
  now destruct (f y).
Qed.

Lemma select_by_username_none (db : t) (name : pystr) :
  select_by_username db name = None ->
  ~ In name (map row_username (users db)).
Proof.
  intros Hnone Hin. apply in_map_iff in Hin. destruct Hin as (r & <- & Hr).
  pose proof (find_none _ _ Hnone r Hr) as Hf. simpl in Hf.
  now rewrite str_eqb_refl in Hf.
Qed.

Lemma register_login_spec (db db' : t) (username password : pystr) (salt : Z) :
  register_user db username password salt = (true, db') ->
  login db' username password
  = Some (mk_User (sequence db + 1) username (hash_password password salt) 1 0%R).
Proof.
  unfold register_user, login, select_by_username.
  destruct (find _ (users db)) as [r|] eqn:Ef; [discriminate|].
  intros E. injection E as <-. unfold insert. cbn [users].
  rewrite find_app_last, Ef. cbn [row_username]. rewrite str_eqb_refl.
  cbn [row_password_hash row_salt]. now rewrite Z.eqb_refl.
Qed.

(** X20.  After a successful [register_user], [login] with the same username and
    password returns the new user: its id is the next id of the table, its
    level 1, its flight minutes 0 and its hash the salted hash of the
    password. *)
Theorem register_then_login (db db' : t) (username password : pystr) (salt : Z) :
  register_user db username password salt = (true, db') ->
  login db' username password
  = Some (mk_User (sequence db + 1) username (hash_password password salt) 1 0%R).
Proof. exact (@register_login_spec db db' username password salt). Qed.

Lemma register_then_login_witness :
  login (snd (register_user empty (of_string "alice") (of_string "s3cretPw") 77))
        (of_string "alice") (of_string "s3cretPw")
  = Some (mk_User (sequence empty + 1) (of_string "alice")
                  (hash_password (of_string "s3cretPw") 77) 1 0%R).
Proof.
  apply (@register_then_login empty _ (of_string "alice") (of_string "s3cretPw") 77).
  reflexivity.
Defined.

(** A username that is taken cannot be registered again: once
    [register_user] has succeeded, registering the same username, with any
    password and salt, returns False and leaves the table as it is. *)
Theorem register_taken_username (db db1 : t) (username password password' : pystr)
    (salt salt' : Z) :
  register_user db username password salt = (true, db1) ->
  register_user db1 username password' salt' = (false, db1).
Proof.
  unfold register_user, select_by_username.
  destruct (find _ (users db)) as [r|] eqn:Ef; [discriminate|].
  intros E. injection E as <-. unfold insert. cbn [users].
  rewrite find_app_last, Ef. cbn [row_username]. now rewrite str_eqb_refl.
Qed.

Lemma register_taken_username_witness :
  register_user (snd (register_user empty (of_string "alice") (of_string "s3cretPw") 77))
                (of_string "alice") (of_string "otherPw9") 99
  = (false, snd (register_user empty (of_string "alice") (of_string "s3cretPw") 77)).
Proof.
  apply (@register_taken_username empty _ (of_string "alice") (of_string "s3cretPw")
           (of_string "otherPw9") 77 99).
  reflexivity.
Defined.

(** X21.  Registering someone else does not disturb an account: whoever could
    log in before [register_user] still logs in afterwards, as the same
    user. *)
Theorem register_keeps_logins (db : t) (username password : pystr) (salt : Z)
    (username' password' : pystr) (user : User) :
  login db username' password' = Some user ->
  login (snd (register_user db username password salt)) username' password'
  = Some user.
Proof.
  intros Hlogin. unfold register_user.
  destruct (select_by_username db username) as [r|]; [exact Hlogin|].
  unfold login, select_by_username, insert in *. cbn [snd users].
  rewrite find_app_last.
  destruct (find _ (users db)) as [r'|]; [exact Hlogin | discriminate].
Qed.

Lemma register_keeps_logins_witness :
  let db := snd (register_user empty (of_string "alice") (of_string "s3cretPw") 77) in
  login (snd (register_user db (of_string "bob") (of_string "hunter22") 31))
        (of_string "alice") (of_string "s3cretPw")
  = Some (mk_User 1 (of_string "alice") (hash_password (of_string "s3cretPw") 77) 1 0%R).
Proof.
  intros db. apply register_keeps_logins. reflexivity.
Defined.



(** *** The constraints of the schema *)

Lemma consistent_empty : consistent empty.
Proof.
  unfold consistent, empty. simpl. repeat split; try constructor; lia.
Qed.

Lemma hash_password_fits (password : pystr) (salt : Z) :
  0 <= hash_password password salt < 2 ^ 63.
Proof.
  unfold hash_password.
  pose proof (Z.mod_pos_bound
                (fold_left (hash_round salt) password 867243217)
                387942806485727 eq_refl).
  lia.
Qed.

Lemma consistent_insert (db : t) (name : pystr) (hash salt lvl : Z) :
  consistent db ->
  ~ In name (map row_username (users db)) ->
  0 <= hash < 2 ^ 63 ->
  consistent (insert db name hash salt lvl).
Proof.
  intros (Hn & Hi & Hf & Hs) Hnew Hh. unfold consistent, insert. cbn [users sequence].
  rewrite !map_app. cbn [map row_username row_user_id].
  repeat split.
  - apply NoDup_app; trivial; [repeat constructor; simpl; tauto|].
    intros a Ha [<-|[]]. contradiction.
  - apply NoDup_app; trivial; [repeat constructor; simpl; tauto|].
    intros a Ha [<-|[]]. apply in_map_iff in Ha. destruct Ha as (r & Er & Hr).
    rewrite Forall_forall in Hf. destruct (Hf r Hr) as [Hid _]. lia.
  - apply Forall_app. split.
    + eapply Forall_impl; [|exact Hf]. cbn beta. intros r [Hid Hhash]. split; lia.
    + repeat constructor; cbn [row_user_id row_password_hash]; lia.
  - lia.
Qed.

Lemma consistent_update_where_id (db : t) (f : row -> row) (id : Z) :
  (forall r, row_username (f r) = row_username r /\
             row_user_id (f r) = row_user_id r /\
             row_password_hash (f r) = row_password_hash r) ->
  consistent db -> consistent (update_where_id f id db).
Proof.
  intros Hf (Hn & Hi & Hr & Hs). unfold consistent, update_where_id.
  cbn [users sequence].
  assert (Hname : map row_username
                      (map (fun r => if row_user_id r =? id then f r else r) (users db))
                  = map row_username (users db)).
  { rewrite map_map. apply map_ext. intros r.
    destruct (row_user_id r =? id); [apply Hf | reflexivity]. }
  assert (Hid : map row_user_id
                    (map (fun r => if row_user_id r =? id then f r else r) (users db))
                = map row_user_id (users db)).
  { rewrite map_map. apply map_ext. intros r.
    destruct (row_user_id r =? id); [apply Hf | reflexivity]. }
  rewrite Hname, Hid. repeat split; trivial.
  apply Forall_map. eapply Forall_impl; [|exact Hr]. cbn beta. intros r Hrow.
  destruct (row_user_id r =? id); [|exact Hrow].
  destruct (Hf r) as (_ & -> & ->). exact Hrow.
Qed.

(** X23.  The code keeps the constraints of the [users] table by itself: after
    [add_default_user], [register_user], [update_level] and
    [update_flight_minutes] usernames are still unique, ids are still
    unique and within the counter, and every stored hash fits a signed
    64-bit integer, so no INSERT can violate the UNIQUE constraint. *)
Theorem users_table_stays_consistent (db : t) (username password : pystr)
    (salt id n : Z) (m : R) :
  consistent db ->
  consistent (add_default_user db salt) /\
  consistent (snd (register_user db username password salt)) /\
  consistent (snd (update_level db id n)) /\
  (forall total db', update_flight_minutes db id m = Ok (total, db') ->
                     consistent db').
Proof.
  intros Hc. split; [|split; [|split]].
  - unfold add_default_user.
    destruct (select_by_username db (of_string "test")) eqn:Es; [exact Hc|].
    apply consistent_insert; trivial.
    + now apply select_by_username_none.
    + apply hash_password_fits.
  - unfold register_user.
    destruct (select_by_username db username) eqn:Es; [exact Hc|].
    cbn [snd]. apply consistent_insert; trivial.
    + now apply select_by_username_none.
    + apply hash_password_fits.
  - unfold update_level. cbn [snd].
    apply consistent_update_where_id; trivial. intros row0. auto.
  - intros total db'. unfold update_flight_minutes.
    destruct (select_by_id db id); [|discriminate].
    intros E. injection E as _ <-.
    apply consistent_update_where_id; trivial. intros row0. auto.
Qed.

Lemma users_table_stays_consistent_witness :
  consistent (add_default_user empty 31) /\
  consistent (snd (register_user empty (of_string "alice") (of_string "s3cretPw") 31)) /\
  consistent (snd (update_level empty 1 5)) /\
  (forall total db', update_flight_minutes empty 1 2%R = Ok (total, db') ->
                     consistent db').
Proof.
  apply users_table_stays_consistent. exact consistent_empty.
Defined.

(** *** Levels and flight minutes *)

Lemma find_update_where_id (f : row -> row) (id : Z) (rows : list row) :
  (forall r, row_user_id (f r) = row_user_id r) ->
  find (fun r => row_user_id r =? id)
       (map (fun r => if row_user_id r =? id then f r else r) rows)
  = option_map f (find (fun r => row_user_id r =? id) rows).
Proof.
  intros Hf. induction rows as [|r rows IH]; simpl; [reflexivity|].
  destruct (row_user_id r =? id) eqn:E.
  - now rewrite Hf, E.
  - now rewrite E.
Qed.

(** X24.  [update_level] returns a level between 1 and 10 whatever level is
    asked for (the level itself when it is in that range, else the nearer
    bound), and the returned level is the one stored for that user. *)
Theorem update_level_clamps (db : t) (id new_level : Z) :
  let (stored, db') := update_level db id new_level in
  1 <= stored <= 10 /\
  (1 <= new_level <= 10 -> stored = new_level) /\
  (new_level < 1 -> stored = 1) /\
  (10 < new_level -> stored = 10) /\
  (forall r, select_by_id db id = Some r ->
             select_by_id db' id = Some (set_level stored r)).
Proof.
  unfold update_level.
  assert (Hsel : forall l r, select_by_id db id = Some r ->
                   select_by_id (update_where_id (set_level l) id db) id
                   = Some (set_level l r)).
  { intros l r Hr. unfold select_by_id, update_where_id in *. cbn [users].
    rewrite find_update_where_id by reflexivity. now rewrite Hr. }
  destruct (Z.ltb_spec new_level 1); [|destruct (Z.gtb_spec new_level 10)];
    repeat split; try lia; auto.
Qed.

Lemma update_level_clamps_witness :
  let (stored, db') :=
    update_level (snd (register_user empty (of_string "alice") (of_string "s3cretPw") 31))
                 1 42 in
  stored = 10.
Proof.
  pose proof (update_level_clamps
                (snd (register_user empty (of_string "alice") (of_string "s3cretPw") 31))
                1 42) as H.
  destruct (update_level _ 1 42) as [stored db'].
  destruct H as (_ & _ & _ & H10 & _). apply H10. lia.
Defined.



End AccountFacts.

(** ** Registration: RegisterScreen.attempt_register *)

Module RegisterFacts.
Import RegisterScreen.

Lemma lstrip_head (isspace : N -> bool) (s : pystr) (c : N) (rest : pystr) :
  lstrip isspace s = c :: rest -> isspace c = false.
Proof.
  induction s as [|x s IH]; simpl; [discriminate|].
  destruct (isspace x) eqn:Ex; [exact IH|].
  intros E. injection E as <- _. exact Ex.
Qed.

Lemma lstrip_snoc (isspace : N -> bool) (s : pystr) (c : N) :
  isspace c = false -> lstrip isspace (s ++ [c]) = lstrip isspace s ++ [c].
Proof.
  intros Hc. induction s as [|x s IH]; simpl.
  - now rewrite Hc.
  - now destruct (isspace x).
Qed.

(** [strip()] leaves no whitespace at either end: the first and the last
    character of the result, if any, are not whitespace, and a string
    without whitespace at its ends is returned as it is. *)
Theorem strip_ends (isspace : N -> bool) (s : pystr) :
  (forall c rest, strip isspace s = c :: rest -> isspace c = false) /\
  (forall c front, strip isspace s = front ++ [c] -> isspace c = false) /\
  (forall c inner d, s = c :: inner ++ [d] ->
                     isspace c = false -> isspace d = false ->
                     strip isspace s = s).
Proof.
  unfold strip. repeat split.
  - intros c rest E.
    destruct (lstrip isspace s) as [|x t] eqn:Et; [discriminate|].
    pose proof (lstrip_head _ _ Et) as Hx.
    simpl in E. rewrite lstrip_snoc in E by exact Hx.
    rewrite rev_app_distr in E. simpl in E. injection E as <- _. exact Hx.
  - intros c front E.
    apply (f_equal (@rev N)) in E. rewrite rev_involutive, rev_app_distr in E.
    simpl in E. exact (lstrip_head _ _ E).
  - intros c inner d -> Hc Hd. cbn [lstrip]. rewrite Hc.
    change (rev (c :: inner ++ [d])) with (rev (inner ++ [d]) ++ [c]).
    rewrite rev_app_distr. cbn [rev app lstrip]. rewrite Hd.
    change (rev (d :: rev inner ++ [c])) with (rev (rev inner ++ [c]) ++ [d]).
    rewrite rev_app_distr, rev_involutive. reflexivity.
Qed.

Lemma strip_ends_witness :
  strip (fun c => N.eqb c 32) (of_string "ab cd")
  = of_string "ab cd".
Proof.
  destruct (strip_ends (fun c => N.eqb c 32) (of_string "ab cd")) as (_ & _ & H).
  apply (H 97%N (of_string "b c") 100%N); reflexivity.
Defined.

Lemma pair_slice (p : pystr) (i : nat) :
  (i + 2 <= length p)%nat ->
  FlightSimulator.slice p i (i + 2) = [char_at p i; char_at p (i + 1)].
Proof.
  unfold FlightSimulator.slice, char_at.
  replace (i + 2 - i)%nat with 2%nat by lia.
  revert p. induction i as [|i IH]; intros p Hlen.
  - destruct p as [|a [|b p]]; simpl in Hlen; try lia. reflexivity.
  - destruct p as [|a p]; simpl in Hlen; [lia|]. simpl. apply IH. lia.
Qed.

Lemma three_identical_false (p : pystr) :
  three_identical p = false <->
  forall i, (i + 2 < length p)%nat ->
            ~ (char_at p i = char_at p (i + 1)
               /\ char_at p (i + 1) = char_at p (i + 2)).
Proof.
  unfold three_identical. split.
  - intros Hf i Hi [E1 E2].
    assert (Ht : existsb (fun i => N.eqb (char_at p i) (char_at p (i + 1))
                                   && N.eqb (char_at p (i + 1)) (char_at p (i + 2)))
                         (seq 0 (length p - 2)) = true).
    { apply existsb_exists. exists i. split; [apply in_seq; lia|].
      rewrite E1, E2, !N.eqb_refl. reflexivity. }
    congruence.
  - intros Hno. apply not_true_is_false. intros Ht.
    apply existsb_exists in Ht. destruct Ht as (i & Hi & Hc).
    apply in_seq in Hi. apply andb_true_iff in Hc. destruct Hc as [E1 E2].
    apply N.eqb_eq in E1, E2. apply (Hno i); [lia | auto].
Qed.

Lemma identical_pairs_false (p : pystr) :
  identical_pairs p = false <->
  forall i, (i + 3 < length p)%nat ->
            ~ (char_at p i = char_at p (i + 2)
               /\ char_at p (i + 1) = char_at p (i + 3)).
Proof.
  unfold identical_pairs.
  assert (Hpair : forall i, (i + 3 < length p)%nat ->
            (str_eqb (FlightSimulator.slice p i (i + 2))
                     (FlightSimulator.slice p (i + 2) (i + 4)) = true
             <-> char_at p i = char_at p (i + 2)
                 /\ char_at p (i + 1) = char_at p (i + 3))).
  { intros i Hi. rewrite AccountFacts.str_eqb_eq.
    replace (i + 4)%nat with (i + 2 + 2)%nat by lia.
    rewrite !pair_slice by lia.
    replace (i + 2 + 1)%nat with (i + 3)%nat by lia.
    split; [intros E; injection E; auto | intros [-> ->]; reflexivity]. }
  split.
  - intros Hf i Hi Hc. apply Hpair in Hc; [|exact Hi].
    assert (Ht : existsb (fun i => str_eqb (FlightSimulator.slice p i (i + 2))
                                           (FlightSimulator.slice p (i + 2) (i + 4)))
                         (seq 0 (length p - 3)) = true).
    { apply existsb_exists. exists i. split; [apply in_seq; lia | exact Hc]. }
    congruence.
  - intros Hno. apply not_true_is_false. intros Ht.
    apply existsb_exists in Ht. destruct Ht as (i & Hi & Hc).
    apply in_seq in Hi. apply Hpair in Hc; [|lia]. apply (Hno i); [lia | exact Hc].
Qed.

(** X26.  The password policy of [attempt_register]: the registration is handed
    to [register_user] (and ends as successful or as an existing username)
    exactly when the stripped username is not empty and the stripped
    password has at least 8 characters, no three equal characters in a
    row and no pair of characters immediately repeated. *)
Theorem password_policy (isspace : N -> bool) (db : UserManager.t)
    (username_field password_field : pystr) (salt : Z) :
  let username := strip isspace username_field in
  let password := strip isspace password_field in
  let outcome := fst (attempt_register isspace db username_field password_field salt) in
  (outcome = Successful \/ outcome = UsernameExists) <->
  (username <> [] /\ (8 <= length password)%nat /\
   (forall i, (i + 2 < length password)%nat ->
              ~ (char_at password i = char_at password (i + 1)
                 /\ char_at password (i + 1) = char_at password (i + 2))) /\
   (forall i, (i + 3 < length password)%nat ->
              ~ (char_at password i = char_at password (i + 2)
                 /\ char_at password (i + 1) = char_at password (i + 3)))).
Proof.
  cbv zeta. unfold attempt_register.
  rewrite <- three_identical_false, <- identical_pairs_false.
  destruct (strip isspace username_field) as [|u0 u] eqn:Eu;
    [cbn; split; [intros [E|E]; discriminate | intros (H & _); congruence]|].
  destruct (strip isspace password_field) as [|p0 p] eqn:Ep;
    [cbn; split; [intros [E|E]; discriminate | intros (_ & H & _); simpl in H; lia]|].
  cbn [is_empty orb].
  destruct (Nat.ltb_spec (length (p0 :: p)) 8) as [Hlen|Hlen];
    [cbn; split; [intros [E|E]; discriminate | intros (_ & H & _); simpl in *; lia]|].
  destruct (three_identical (p0 :: p));
    [cbn; split; [intros [E|E]; discriminate | intros (_ & _ & H & _); discriminate]|].
  destruct (identical_pairs (p0 :: p));
    [cbn; split; [intros [E|E]; discriminate | intros (_ & _ & _ & H); discriminate]|].
  destruct (UserManager.register_user db (u0 :: u) (p0 :: p) salt) as [[|] db'];
    cbn; (split; [intros _; repeat split; [discriminate | exact Hlen] | auto]).
Qed.

Lemma password_policy_witness :
  fst (attempt_register (fun c => N.eqb c 32) UserManager.empty
                        (of_string " alice ") (of_string "abab1234") 31)
  <> Successful.
Proof.
  intros E.
  pose proof (proj1 (password_policy (fun c => N.eqb c 32) UserManager.empty
                       (of_string " alice ") (of_string "abab1234") 31)
                    (or_introl E)) as (_ & _ & _ & Hpairs).
  apply (Hpairs 0%nat); [vm_compute; lia | split; reflexivity].
Defined.

(** X27.  What [attempt_register] does to the table: every outcome but success
    leaves it untouched, and after a success [login] accepts the stripped
    username and password. *)
Theorem attempt_register_effect (isspace : N -> bool) (db : UserManager.t)
    (username_field password_field : pystr) (salt : Z) :
  let (outcome, db') :=
    attempt_register isspace db username_field password_field salt in
  (outcome <> Successful -> db' = db) /\
  (outcome = Successful ->
   exists user,
     UserManager.login db' (strip isspace username_field)
                       (strip isspace password_field) = Some user /\
     UserManager.level user = 1%Z /\
     UserManager.username user = strip isspace username_field).
Proof.
  unfold attempt_register.
  destruct (is_empty _ || is_empty _); [split; [reflexivity | discriminate]|].
  destruct (length _ <? 8); [split; [reflexivity | discriminate]|].
  destruct (three_identical _); [split; [reflexivity | discriminate]|].
  destruct (identical_pairs _); [split; [reflexivity | discriminate]|].
  destruct (UserManager.register_user db _ _ salt) as [[|] db'] eqn:Er.
  - split; [congruence|]. intros _.
    rewrite (AccountFacts.register_login_spec _ _ _ _ Er). eauto.
  - split; [intros _ | discriminate].
    unfold UserManager.register_user in Er.
    destruct (UserManager.select_by_username db _); [|discriminate].
    now injection Er as <-.
Qed.

Lemma attempt_register_effect_witness :
  exists user,
    UserManager.login
      (snd (attempt_register (fun c => N.eqb c 32) UserManager.empty
                             (of_string " alice ") (of_string "s3cretPw ") 31))
      (strip (fun c => N.eqb c 32) (of_string " alice "))
      (strip (fun c => N.eqb c 32) (of_string "s3cretPw ")) = Some user /\
    UserManager.level user = 1%Z /\
    UserManager.username user = strip (fun c => N.eqb c 32) (of_string " alice ").
Proof.
  pose proof (attempt_register_effect (fun c => N.eqb c 32) UserManager.empty
                (of_string " alice ") (of_string "s3cretPw ") 31) as H.
  destruct (attempt_register (fun c => N.eqb c 32) UserManager.empty
              (of_string " alice ") (of_string "s3cretPw ") 31)
    as [outcome db'] eqn:E.
  assert (Ho : outcome = Successful).
  { apply (f_equal fst) in E. cbn [fst] in E. rewrite <- E. vm_compute. reflexivity. }
  destruct H as [_ H]. exact (H Ho).
Defined.

End RegisterFacts.

(** ** After the flight: PostFlight.__init__ *)

Module PostFlightFacts.
Import PostFlight.
Local Open Scope Z_scope.

Lemma select_by_id_after_init (db : UserManager.t) (salt id : Z) (r : UserManager.row) :
  UserManager.select_by_id db id = Some r ->
  UserManager.select_by_id (UserManager.init db salt) id = Some r.
Proof.
  intros Hr. unfold UserManager.init, UserManager.add_default_user.
  destruct (UserManager.select_by_username db (of_string "test")); [exact Hr|].
  unfold UserManager.select_by_id, UserManager.insert in *. cbn [UserManager.users].
  now rewrite AccountFacts.find_app_last, Hr.
Qed.

Ltac lookup_required :=
  repeat match goal with
         | |- context [py_index required_minutes ?k] =>
             let v := eval vm_compute in (py_index required_minutes k) in
             change (py_index required_minutes k) with v
         end.

Ltac level_cases user :=
  let Hl := fresh "Hl" in
  match goal with
  | H : 1 <= UserManager.level user <= 10 |- _ =>
      assert (Hl : UserManager.level user = 1 \/ UserManager.level user = 2 \/
                   UserManager.level user = 3 \/ UserManager.level user = 4 \/
                   UserManager.level user = 5 \/ UserManager.level user = 6 \/
                   UserManager.level user = 7 \/ UserManager.level user = 8 \/
                   UserManager.level user = 9 \/ UserManager.level user = 10)
        by lia;
      clear H
  end.

(** X28.  A pilot at level 10 who lands without a crash cannot be shown the
    post-flight screen: the progress line reads [required_minutes[10]] in a
    list of ten entries and [__init__] raises [IndexError], whatever the
    flight time. *)
Theorem level_ten_without_crash_raises (db : UserManager.t) (salt : Z)
    (user : UserManager.User) (r : UserManager.row) (flight_time : R) :
  UserManager.select_by_id db (UserManager.user_id user) = Some r ->
  UserManager.level user = 10 ->
  init db salt (Some user) flight_time false = Raise IndexError.
Proof.
  intros Hr Hlevel. unfold init.
  unfold UserManager.update_flight_minutes.
  rewrite (select_by_id_after_init _ salt _ Hr). cbn [bind]. rewrite Hlevel.
  cbn [andb negb].
  destruct (Rge_dec (flight_time / 60) 1); reflexivity.
Qed.

(** X29.  For every other pilot of level 1 to 10 that is in the table the
    screen comes up, and the level moves by at most one step inside
    1..10: a crash takes one level off (none at level 1) and never adds
    one; without a crash the level stays or goes up by one, and it stays
    when the flight lasted less than a minute. *)
Theorem level_moves_one_step (db : UserManager.t) (salt : Z)
    (user : UserManager.User) (r : UserManager.row) (flight_time : R)
    (crashed : bool) :
  UserManager.select_by_id db (UserManager.user_id user) = Some r ->
  1 <= UserManager.level user <= 10 ->
  (UserManager.level user = 10 -> crashed = true) ->
  exists pf db' user',
    init db salt (Some user) flight_time crashed = Ok (pf, db', Some user') /\
    UserManager.level user' = new_level pf /\
    1 <= new_level pf <= 10 /\
    (crashed = true ->
     new_level pf = Z.max 1 (UserManager.level user - 1) /\ level_up pf = false) /\
    (crashed = false ->
     UserManager.level user <= new_level pf <= UserManager.level user + 1 /\
     level_down pf = false /\
     ((flight_time / 60 < 1)%R -> new_level pf = UserManager.level user)).
Proof.
  intros Hr Hrange Hten. unfold init.
  unfold UserManager.update_flight_minutes.
  rewrite (select_by_id_after_init _ salt _ Hr). cbn [bind].
  level_cases user.
  destruct crashed.
  - repeat (destruct Hl as [Hl|Hl]); rewrite Hl; cbn -[py_index];
      lookup_required; cbn;
      repeat match goal with
             | |- context [Rlt_dec ?a ?b] => destruct (Rlt_dec a b)
             end;
      eexists _, _, _; (split; [reflexivity|]); cbn; rewrite ?Hl;
      repeat split; try lia; try discriminate.
  - assert (Hl' : UserManager.level user <> 10)
      by (intros E; specialize (Hten E); discriminate).
    repeat (destruct Hl as [Hl|Hl]); try contradiction; rewrite Hl;
      cbn -[py_index];
      repeat match goal with
             | |- context [Rge_dec ?a ?b] => destruct (Rge_dec a b)
             end;
      cbn -[py_index]; lookup_required; cbn;
      repeat match goal with
             | |- context [Rge_dec ?a ?b] => destruct (Rge_dec a b)
             | |- context [Rlt_dec ?a ?b] => destruct (Rlt_dec a b)
             end; cbn -[py_index]; lookup_required; cbn;
      repeat match goal with
             | |- context [Rlt_dec ?a ?b] => destruct (Rlt_dec a b)
             end;
      eexists _, _, _; (split; [reflexivity|]); cbn; rewrite ?Hl;
      repeat split; try lia; try discriminate; try (intros; lra).
Qed.

Lemma level_ten_without_crash_raises_witness :
  let db := snd (UserManager.register_user UserManager.empty (of_string "alice")
                                           (of_string "s3cretPw") 77) in
  let user := UserManager.mk_User 1 (of_string "alice")
                (hash_password (of_string "s3cretPw") 77) 10 0%R in
  init db 31 (Some user) 90%R false = Raise IndexError.
Proof.
  intros db user.
  eapply level_ten_without_crash_raises; reflexivity.
Defined.

Lemma level_moves_one_step_witness :
  let db := snd (UserManager.register_user UserManager.empty (of_string "alice")
                                           (of_string "s3cretPw") 77) in
  let user := UserManager.mk_User 1 (of_string "alice")
                (hash_password (of_string "s3cretPw") 77) 4 0%R in
  exists pf db' user',
    init db 31 (Some user) 90%R true = Ok (pf, db', Some user') /\
    UserManager.level user' = new_level pf /\
    1 <= new_level pf <= 10 /\
    (true = true ->
     new_level pf = Z.max 1 (UserManager.level user - 1) /\ level_up pf = false) /\
    (true = false ->
     UserManager.level user <= new_level pf <= UserManager.level user + 1 /\
     level_down pf = false /\
     ((90 / 60 < 1)%R -> new_level pf = UserManager.level user)).
Proof.
  intros db user.
  eapply level_moves_one_step.
  - reflexivity.
  - simpl. lia.
  - simpl. discriminate.
Defined.

End PostFlightFacts.

(** ** Planes: PlaneManager and the default selection of MainMenu *)

Module PlaneFacts.
Local Open Scope Z_scope.

(** [populate_planes] fills an empty table with the five default planes,
    whose levels are the next five ids in order, and does nothing to a
    table that has a plane: running it again changes nothing. *)
Theorem populate_planes_once (db : PlaneManager.t) :
  PlaneManager.populate_planes (PlaneManager.populate_planes db)
  = PlaneManager.populate_planes db /\
  (PlaneManager.planes db = [] ->
   map PlaneManager.level (PlaneManager.planes (PlaneManager.populate_planes db))
   = map (fun k => PlaneManager.sequence db + k) [1; 2; 3; 4; 5] /\
   map PlaneManager.name (PlaneManager.planes (PlaneManager.populate_planes db))
   = map of_string ["Cessna-172"; "Boeing-737"; "Spitfire"; "ORCA"; "X-Wing"]%string) /\
  (PlaneManager.planes db <> [] -> PlaneManager.populate_planes db = db).
Proof.
  destruct db as [[|p ps] n].
  - split; [reflexivity|]. split; [|intros H; now contradiction H].
    intros _. cbn. split; [|reflexivity].
    repeat (f_equal; try lia).
  - split; [reflexivity|]. split; [discriminate | reflexivity].
Qed.

Lemma populate_planes_once_witness :
  map PlaneManager.level
      (PlaneManager.planes (PlaneManager.populate_planes PlaneManager.empty))
  = [1; 2; 3; 4; 5].
Proof.
  destruct (populate_planes_once PlaneManager.empty) as (_ & Hfresh & _).
  destruct (Hfresh eq_refl) as [Hl _]. exact Hl.
Defined.

Lemma last_item_In {X : Type} (l : list X) (x : X) :
  MainMenu.last_item l = Ok x -> In x l.
Proof.
  unfold MainMenu.last_item, getitem.
  destruct (nth_error (rev l) 0) as [y|] eqn:E; [|discriminate].
  intros Ex. injection Ex as <-. apply in_rev. eapply nth_error_In; eauto.
Qed.

Lemma last_item_total {X : Type} (x : X) (l : list X) :
  exists y, MainMenu.last_item (x :: l) = Ok y.
Proof.
  unfold MainMenu.last_item, getitem.
  destruct (nth_error (rev (x :: l)) 0) as [y|] eqn:E; [eauto|].
  apply nth_error_None in E. rewrite length_rev in E. simpl in E. lia.
Qed.

(** X30.  The plane selected when the menu opens: with an empty plane list the
    constructor raises [IndexError]; if some plane is unlocked for the
    user's level the selection is an unlocked plane of the list; if none
    is, the first plane is selected although it is locked. *)
Theorem default_selection_cases (planes : list MainMenu.plane_info) (user_level : Z) :
  (planes = [] -> MainMenu.default_selection planes user_level = Raise IndexError) /\
  ((exists p, In p planes /\ MainMenu.unlocked p user_level = true) ->
   exists p, In p planes /\ MainMenu.unlocked p user_level = true /\
             MainMenu.default_selection planes user_level = Ok (MainMenu.info_name p)) /\
  (forall p rest,
     planes = p :: rest ->
     (forall q, In q planes -> MainMenu.unlocked q user_level = false) ->
     MainMenu.default_selection planes user_level = Ok (MainMenu.info_name p)).
Proof.
  unfold MainMenu.default_selection, MainMenu.unlocked. repeat split.
  - intros ->. reflexivity.
  - intros (p & Hp & Hu).
    destruct (filter (fun p => MainMenu.info_level p <=? user_level) planes)
      as [|q qs] eqn:Ef.
    + assert (Hin : In p (filter (fun p => MainMenu.info_level p <=? user_level) planes))
        by (apply filter_In; auto).
      rewrite Ef in Hin. destruct Hin.
    + cbn [map].
      destruct (last_item_total (MainMenu.info_name q) (map MainMenu.info_name qs))
        as (name & Ename).
      pose proof (last_item_In _ Ename) as Hin.
      change (MainMenu.info_name q :: map MainMenu.info_name qs)
        with (map MainMenu.info_name (q :: qs)) in Hin.
      apply in_map_iff in Hin. destruct Hin as (p' & <- & Hp').
      rewrite <- Ef in Hp'. apply filter_In in Hp'. destruct Hp' as [Hp1 Hp2].
      exists p'. auto.
  - intros p rest -> Hlocked.
    destruct (filter (fun p => MainMenu.info_level p <=? user_level) (p :: rest))
      as [|q qs] eqn:Ef; [reflexivity|].
    assert (Hin : In q (filter (fun p => MainMenu.info_level p <=? user_level) (p :: rest)))
      by (rewrite Ef; now left).
    apply filter_In in Hin. destruct Hin as [Hq Hu].
    rewrite (Hlocked q Hq) in Hu. discriminate.
Qed.

Lemma default_selection_cases_witness :
  MainMenu.default_selection
    [(3, of_string "Spitfire", of_string "t.jpg", of_string "d.txt");
     (4, of_string "ORCA", of_string "t.png", of_string "d.txt")] 1
  = Ok (of_string "Spitfire").
Proof.
  destruct (default_selection_cases
              [(3, of_string "Spitfire", of_string "t.jpg", of_string "d.txt");
               (4, of_string "ORCA", of_string "t.png", of_string "d.txt")] 1)
    as (_ & _ & Hlocked).
  apply (Hlocked _ _ eq_refl).
  intros q [<-|[<-|[]]]; reflexivity.
Defined.

End PlaneFacts.
